(** * ConceptGraph: a shallow embedding of [ConceptGraph.py]

    The development follows the three classes of the module,
    [ConceptNode], [ConceptEdge] and [ConceptGraph], together with the
    parts of the Python runtime, of NLTK's WordNet reader and of
    NetworkX's [DiGraph] that their methods call.

    Conventions.
    - A method that may raise returns an [outcome]; a method that also
      mutates runs in the monad [M], which keeps the state reached when
      the exception is raised (a Python exception does not undo
      mutations).
    - Python sets are lists in some iteration order, with membership
      decided as CPython does: same hash, then [__eq__].
    - The WordNet corpus is a parameter of every definition that queries
      it.
    - What [print] writes is not kept. *)

From Stdlib Require Import List ZArith String Ascii Bool Lia.
From Stdlib Require Import DecimalString.
Import ListNotations.
Local Open Scope string_scope.
Local Open Scope Z_scope.

(** ** Exceptions and the outcome of a call *)

(** [Exception msg] is the builtin raised by the module itself with the
    message it builds; the others are raised by the runtime or by the
    libraries. *)
Inductive exn : Type :=
| Exception (msg : string)
| AttributeError (msg : string)
| IndexError
| KeyError (key : string)
| TypeError (msg : string)
| WordNetError (name : string)
| NetworkXError
| NetworkXUnfeasible.

Inductive outcome (A : Type) : Type :=
| Ret (a : A)
| Raise (e : exn).
Arguments Ret {A} a.
Arguments Raise {A} e.

Definition obind {A B : Type} (o : outcome A) (k : A -> outcome B) : outcome B :=
  match o with
  | Ret a => k a
  | Raise e => Raise e
  end.

(** State and exceptions: the state survives a raise. *)
Definition M (St A : Type) : Type := St -> St * outcome A.

Definition ret {St A : Type} (a : A) : M St A := fun s => (s, Ret a).
Definition raise {St A : Type} (e : exn) : M St A := fun s => (s, Raise e).
Definition bind {St A B : Type} (m : M St A) (k : A -> M St B) : M St B :=
  fun s => match m s with
           | (s', Ret a) => k a s'
           | (s', Raise e) => (s', Raise e)
           end.
Definition get {St : Type} : M St St := fun s => (s, Ret s).
Definition modify {St : Type} (f : St -> St) : M St unit := fun s => (f s, Ret tt).
Definition lift {St A : Type} (o : outcome A) : M St A := fun s => (s, o).
(** [try: m except Exception as e: print(e)]: the exception is printed and
    dropped, the mutations stay. *)
Definition try_print {St : Type} (m : M St unit) : M St unit :=
  fun s => (fst (m s), Ret tt).

Declare Scope py_scope.
Delimit Scope py_scope with py.
Notation "x <- m ;; k" := (bind m (fun x => k))
  (at level 61, m at next level, right associativity) : py_scope.
Notation "m ;;; k" := (bind m (fun _ => k))
  (at level 61, right associativity) : py_scope.
Notation "x <~ o ;; k" := (obind o (fun x => k))
  (at level 61, o at next level, right associativity) : py_scope.

(** ** The Python runtime *)

Module Py.

(** [hash] of an [int]: reduction modulo the Mersenne prime 2^61 - 1,
    keeping the sign, with -1 reserved. *)
Definition hash_int (z : Z) : Z :=
  let h := Z.sgn z * (Z.abs z mod (2 ^ 61 - 1)) in
  if h =? -1 then -2 else h.

(** [l1 == l2] on lists: same length and equal elements in order. *)
Fixpoint list_eq {A : Type} (eq : A -> A -> bool) (l1 l2 : list A) : bool :=
  match l1, l2 with
  | [], [] => true
  | x :: l1', y :: l2' => eq x y && list_eq eq l1' l2'
  | _, _ => false
  end.

(** [x in l] on lists. *)
Definition list_contains (l : list string) (x : string) : bool :=
  existsb (String.eqb x) l.

(** [l.add(x)]: a list has no attribute [add]. *)
Definition list_add (l : list string) (x : string) : outcome (list string) :=
  Raise (AttributeError "'list' object has no attribute 'add'").

(** [s.split(sep)] for a one-character separator. *)
Fixpoint split (sep : ascii) (s : string) : list string :=
  match s with
  | EmptyString => [EmptyString]
  | String c s' =>
      if Ascii.eqb c sep then EmptyString :: split sep s'
      else match split sep s' with
           | [] => [String c EmptyString]
           | w :: ws => String c w :: ws
           end
  end.

(** [sep.join(l)]. *)
Definition join (sep : string) (l : list string) : string := String.concat sep l.

(** [str(z)]. *)
Definition str_int (z : Z) : string := NilZero.string_of_int (Z.to_int z).

(** [str(l)] for a list of strings: the [repr] of each element in single
    quotes (labels without quotes or escapes). *)
Definition str_list (l : list string) : string :=
  "[" ++ join ", " (map (fun x => "'" ++ x ++ "'") l) ++ "]".

(** Sets.  [x in s] finds an element of [s] with the hash of [x] that
    is [x] itself or compares equal to it ([stored.__eq__(x)]); every
    [__eq__] of this module is reflexive on one object, so identity adds
    nothing.  [s.add(x)] inserts [x] unless [x in s]. *)
Section Sets.
Context {A : Type} (same_hash : A -> A -> bool) (eq : A -> A -> bool).

Definition set_contains (s : list A) (x : A) : bool :=
  existsb (fun y => same_hash y x && eq y x) s.

Definition set_add (s : list A) (x : A) : list A :=
  if set_contains s x then s else (s ++ [x])%list.
End Sets.

End Py.

(** ** WordNet, as the module sees it (nltk.corpus.wordnet)

    A synset is known by its name; [hypernym_paths] lists the names of the
    synsets on each path from a root down to the synset itself. *)
Record Synset : Type := {
  name : string;
  pos : string;
  lemma_names : list string;
  hypernym_paths : list (list string)
}.

Record WordNet : Type := {
  wn_synset : string -> option Synset;   (* wn.synset(name), None: WordNetError *)
  wn_synsets : string -> list Synset     (* wn.synsets(word), [] when unknown *)
}.

(** Synsets compare by name. *)
Definition Synset_eq (s1 s2 : Synset) : bool := String.eqb (name s1) (name s2).

Definition synset (wn : WordNet) (n : string) : outcome Synset :=
  match wn_synset wn n with
  | Some s => Ret s
  | None => Raise (WordNetError n)
  end.

(** ** ConceptNode *)

Record ConceptNode : Type := {
  id_networkx : Z;
  descriptors : list string;
  synset_name : string
}.

Module Node.
Local Open Scope py_scope.

Section WithWordNet.
Variable wn : WordNet.

(** The types of the model already make [descriptors] a set of [str]
    and [name] a [str]; what is left is the length test. *)
Definition valid_types (descriptors : list string) (name : string) : bool :=
  negb (Nat.eqb (List.length descriptors) 0).

Definition valid_args (descriptors : list string) (name : string) : outcome bool :=
  if Nat.eqb (List.length descriptors) 0 then Ret false
  else
    s <~ synset wn name ;;
    Ret (String.eqb (pos s) "n"
         && forallb (fun x => negb (Nat.eqb (List.length (wn_synsets wn x)) 0)
                              && existsb (Synset_eq s) (wn_synsets wn x))
                    descriptors).

(** [ConceptNode(descriptors, name)].  The state is the class attribute
    [siguiente_id]; it is advanced before any validation.  The set
    [descriptors] is given in its iteration order, which is the order
    [list(descriptors)] keeps.  The bare [except] turns every failure of
    [valid_args], also its own "invalid argument", into the last
    message. *)
Definition __init__ (descriptors : list string) (name : string) : M Z ConceptNode :=
  id <- get ;;
  modify (fun siguiente_id => siguiente_id + 1) ;;;
  if negb (valid_types descriptors name)
  then raise (Exception "ConceptNode constructor: invalid argument type")
  else match valid_args descriptors name with
       | Ret true =>
           ret {| id_networkx := id; descriptors := descriptors; synset_name := name |}
       | _ =>
           raise (Exception ("ConceptNode constructor:" ++ name
                               ++ " is not the name of a WordNet synset"))
       end.

Definition from_descriptor (descriptor : string) : M Z ConceptNode :=
  let synsets := wn_synsets wn descriptor in
  match synsets with
  | [] => raise (Exception ("from_descriptor:" ++ descriptor ++ "not found in Wordnet"))
  | [s] => __init__ [descriptor] (name s)
  | _ =>
      let all_synonyms :=
        map (fun s => name s ++ ": " ++ Py.join ", " (lemma_names s)) synsets in
      let message := Py.join (String "010" "") all_synonyms in
      raise (Exception ("from_descriptor:" ++ descriptor ++ "has multiple meanings."
                          ++ "Please create node using one of the following synset names:"
                          ++ String "010" " " ++ message))
  end.

Definition valid_add_descriptor (self : ConceptNode) (descriptor : string) : outcome bool :=
  s <~ synset wn (synset_name self) ;;
  if negb (existsb (Synset_eq s) (wn_synsets wn descriptor))
  then Raise (Exception ("valid_add_descriptor:" ++ descriptor ++ "not a synonym"))
  else Ret true.

(** [self.add_descriptor(descriptor)]; the state is the object [self]. *)
Definition add_descriptor (descriptor : string) : M ConceptNode unit :=
  self <- get ;;
  if Py.list_contains (descriptors self) descriptor then ret tt
  else
    ok <- lift (valid_add_descriptor self descriptor) ;;
    if ok then
      l <- lift (Py.list_add (descriptors self) descriptor) ;;
      modify (fun self => {| id_networkx := id_networkx self;
                             descriptors := l;
                             synset_name := synset_name self |})
    else ret tt.

End WithWordNet.

Definition __str__ (self : ConceptNode) : string :=
  Py.str_int (id_networkx self) ++ "( " ++ Py.str_list (descriptors self)
    ++ ", " ++ synset_name self ++ " )".

(** [self == other] between two ConceptNodes. *)
Definition __eq__ (self other : ConceptNode) : bool :=
  Py.list_eq String.eqb (descriptors self) (descriptors other)
  && String.eqb (synset_name self) (synset_name other).

Definition __hash__ (self : ConceptNode) : Z := Py.hash_int (id_networkx self).

Definition same_hash (a b : ConceptNode) : bool := __hash__ a =? __hash__ b.

End Node.

(** ** ConceptEdge *)

Record ConceptEdge : Type := {
  source : ConceptNode;
  target : ConceptNode;
  label : option string
}.

Module Edge.

(** [ConceptEdge(node1, node2, info=None)]; both arguments are
    ConceptNodes by their type. *)
Definition __init__ (node1 node2 : ConceptNode) (info : option string) : ConceptEdge :=
  {| source := node1; target := node2; label := info |}.

Definition label_eq (l1 l2 : option string) : bool :=
  match l1, l2 with
  | Some a, Some b => String.eqb a b
  | None, None => true
  | _, _ => false
  end.

(** [self == other] between two ConceptEdges.  The conditional expression
    binds weaker than [and]: the whole conjunction is its first branch. *)
Definition __eq__ (self other : ConceptEdge) : bool :=
  match label self with
  | Some _ =>
      Node.__eq__ (source self) (source other)
      && Node.__eq__ (target self) (target other)
      && label_eq (label self) (label other)
  | None => true
  end.

(** [hash((self.source, self.target))]: the hash of a pair is a function
    of the hashes of its components; it is kept here as the pair of them,
    that is, free of collisions. *)
Definition __hash__ (self : ConceptEdge) : Z * Z :=
  (Node.__hash__ (source self), Node.__hash__ (target self)).

Definition same_hash (a b : ConceptEdge) : bool :=
  (fst (__hash__ a) =? fst (__hash__ b)) && (snd (__hash__ a) =? snd (__hash__ b)).

End Edge.

(** The values a polymorphic [__contains__] may be given. *)
Inductive pyobj : Type :=
| PyStr (s : string)
| PyInt (z : Z)
| PyNode (c : ConceptNode)
| PyEdge (e : ConceptEdge)
| PyNone.

(** ** NetworkX: the part of [DiGraph] the module uses

    [_node] is the node dictionary (node to attribute dictionary) and
    [_succ] the adjacency as the list of its edges, both in insertion
    order.  Every node of this module is an [int], the [id_networkx] of a
    ConceptNode. *)
Module NX.
Local Open Scope py_scope.

Inductive attr : Type :=
| AttrInt (z : Z)
| AttrStr (s : string)
| AttrList (l : list string).

Definition attr_dict : Type := list (string * attr).

Record DiGraph : Type := {
  _node : list (Z * attr_dict);
  _succ : list (Z * Z)
}.

(** [nx.DiGraph()] *)
Definition empty : DiGraph := {| _node := []; _succ := [] |}.

Definition nodes (G : DiGraph) : list Z := map fst (_node G).

Definition mem (x : Z) (l : list Z) : bool := existsb (Z.eqb x) l.

Definition edge_eqb (e1 e2 : Z * Z) : bool :=
  (fst e1 =? fst e2) && (snd e1 =? snd e2).

Definition has_node (G : DiGraph) (n : Z) : bool := mem n (nodes G).

(** [n in G]: a key lookup in [_node].  The keys are ints; a [str] is
    equal to none of them, neither is a ConceptNode or a ConceptEdge
    (their [__eq__] answers [NotImplemented] to an int and the
    comparison falls back to identity). *)
Definition __contains__ (G : DiGraph) (n : pyobj) : bool :=
  match n with
  | PyInt z => has_node G z
  | _ => false
  end.

(** [d[k] = v] *)
Fixpoint dict_set (d : attr_dict) (k : string) (v : attr) : attr_dict :=
  match d with
  | [] => [(k, v)]
  | (k', v') :: d' =>
      if String.eqb k' k then (k', v) :: d' else (k', v') :: dict_set d' k v
  end.

(** [d.update(other)] *)
Definition dict_update (d other : attr_dict) : attr_dict :=
  fold_left (fun acc kv => dict_set acc (fst kv) (snd kv)) other d.

(** [d[k]] *)
Fixpoint dict_get (d : attr_dict) (k : string) : outcome attr :=
  match d with
  | [] => Raise (KeyError k)
  | (k', v) :: d' => if String.eqb k' k then Ret v else dict_get d' k
  end.

(** [G._node[n].update(a)] *)
Fixpoint node_update (l : list (Z * attr_dict)) (n : Z) (a : attr_dict)
  : list (Z * attr_dict) :=
  match l with
  | [] => []
  | (m, d) :: l' =>
      if m =? n then (m, dict_update d a) :: l' else (m, d) :: node_update l' n a
  end.

(** [G.add_node(n, **attr)] *)
Definition add_node (G : DiGraph) (n : Z) (a : attr_dict) : DiGraph :=
  if has_node G n
  then {| _node := node_update (_node G) n a; _succ := _succ G |}
  else {| _node := (_node G ++ [(n, dict_update [] a)])%list; _succ := _succ G |}.

(** [G.has_edge(u, v)] *)
Definition has_edge (G : DiGraph) (u v : Z) : bool :=
  existsb (edge_eqb (u, v)) (_succ G).

(** [G.add_edge(u, v)]: missing end points become nodes without
    attributes; an edge already present is kept as it is. *)
Definition add_edge (G : DiGraph) (u v : Z) : DiGraph :=
  let G1 := if has_node G u then G else add_node G u [] in
  let G2 := if has_node G1 v then G1 else add_node G1 v [] in
  if has_edge G2 u v then G2
  else {| _node := _node G2; _succ := (_succ G2 ++ [(u, v)])%list |}.

(** [G.remove_edge(u, v)] *)
Definition remove_edge (G : DiGraph) (u v : Z) : outcome DiGraph :=
  if has_edge G u v
  then Ret {| _node := _node G;
              _succ := filter (fun e => negb (edge_eqb (u, v) e)) (_succ G) |}
  else Raise NetworkXError.

(** [G.nodes[n]] *)
Fixpoint node_attrs (l : list (Z * attr_dict)) (n : Z) : outcome attr_dict :=
  match l with
  | [] => Raise (KeyError (Py.str_int n))
  | (m, d) :: l' => if m =? n then Ret d else node_attrs l' n
  end.

(** [G.nodes[n][k] = v] *)
Fixpoint node_set_attr (l : list (Z * attr_dict)) (n : Z) (k : string) (v : attr)
  : list (Z * attr_dict) :=
  match l with
  | [] => []
  | (m, d) :: l' =>
      if m =? n then (m, dict_set d k v) :: l' else (m, d) :: node_set_attr l' n k v
  end.

(** The attributes of [G.nodes] (a [NodeView], which has [__slots__] and
    the mapping and set interfaces) that can be looked up by name. *)
Inductive NodeView_method : Type :=
| nv_data | nv_get | nv_isdisjoint | nv_items | nv_keys | nv_values.

Definition NodeView_getattr (attr : string) : outcome NodeView_method :=
  if String.eqb attr "data" then Ret nv_data
  else if String.eqb attr "get" then Ret nv_get
  else if String.eqb attr "isdisjoint" then Ret nv_isdisjoint
  else if String.eqb attr "items" then Ret nv_items
  else if String.eqb attr "keys" then Ret nv_keys
  else if String.eqb attr "values" then Ret nv_values
  else Raise (AttributeError ("'NodeView' object has no attribute '" ++ attr ++ "'")).

(** [elem in m()] for a method [m] of [G.nodes] called without
    arguments: the keys and the data view hold the nodes, the items are
    pairs and the values dictionaries. *)
Definition in_call (G : DiGraph) (m : NodeView_method) (elem : pyobj) : outcome bool :=
  match m with
  | nv_keys | nv_data => Ret (__contains__ G elem)
  | nv_items | nv_values => Ret false
  | nv_get | nv_isdisjoint => Raise (TypeError "missing 1 required positional argument")
  end.

(** [G.in_degree(v)] *)
Definition in_degree (E : list (Z * Z)) (v : Z) : nat :=
  List.length (filter (fun e => snd e =? v) E).

Definition zero_indegree (remaining : list Z) (E : list (Z * Z)) : list Z :=
  filter (fun v => Nat.eqb (in_degree E v) 0) remaining.

(** [nx.topological_generations(G)], consumed to its end (Kahn's
    algorithm).  Each round yields the nodes whose in-degree has dropped
    to zero and discounts their outgoing edges; when nodes are left and
    none has in-degree zero, [NetworkXUnfeasible] is raised.  [remaining]
    are the nodes not yet yielded, [E] the edges not yet discounted.
    Every round yields at least one node, so a fuel of the number of
    nodes is never used up. *)
Fixpoint generations (fuel : nat) (remaining : list Z) (E : list (Z * Z))
  : outcome (list (list Z)) :=
  match remaining with
  | [] => Ret []
  | _ :: _ =>
      match fuel with
      | O => Raise NetworkXUnfeasible
      | S fuel' =>
          let this_generation := zero_indegree remaining E in
          match this_generation with
          | [] => Raise NetworkXUnfeasible
          | _ :: _ =>
              rest <~ generations fuel'
                        (filter (fun v => negb (mem v this_generation)) remaining)
                        (filter (fun e => negb (mem (fst e) this_generation)) E) ;;
              Ret (this_generation :: rest)
          end
      end
  end.

Definition topological_generations (G : DiGraph) : outcome (list (list Z)) :=
  generations (List.length (nodes G)) (nodes G) (_succ G).

(** [G.predecessors(v)] *)
Definition predecessors (G : DiGraph) (v : Z) : list Z :=
  map fst (filter (fun e => snd e =? v) (_succ G)).

(** Breadth-first search along reversed edges.  Every round but the last
    visits a new node, so a fuel of the number of nodes suffices. *)
Fixpoint bfs_reverse (fuel : nat) (G : DiGraph) (visited frontier : list Z) : list Z :=
  match fuel with
  | O => visited
  | S fuel' =>
      let next :=
        nodup Z.eq_dec
          (filter (fun u => negb (mem u visited)) (flat_map (predecessors G) frontier)) in
      match next with
      | [] => visited
      | _ :: _ => bfs_reverse fuel' G (visited ++ next)%list next
      end
  end.

(** [nx.ancestors(G, source)]: the nodes with a path to [source], without
    [source] itself. *)
Definition ancestors (G : DiGraph) (source : Z) : outcome (list Z) :=
  if has_node G source
  then Ret (tl (bfs_reverse (List.length (nodes G)) G [source] [source]))
  else Raise NetworkXError.

End NX.

(** ** ConceptGraph

    [Env] is the part of the Python state a method of one ConceptGraph
    reads and writes: the class attribute [ConceptNode.siguiente_id] and
    the three objects [self.nodes], [self.edges] and [self.graph]. *)
Record Env : Type := {
  siguiente_id : Z;
  nodes : list ConceptNode;
  edges : list ConceptEdge;
  graph : NX.DiGraph
}.

Module Graph.
Local Open Scope py_scope.

Definition set_siguiente_id (n : Z) (self : Env) : Env :=
  {| siguiente_id := n; nodes := nodes self; edges := edges self; graph := graph self |}.
Definition set_nodes (s : list ConceptNode) (self : Env) : Env :=
  {| siguiente_id := siguiente_id self; nodes := s; edges := edges self; graph := graph self |}.
Definition set_edges (s : list ConceptEdge) (self : Env) : Env :=
  {| siguiente_id := siguiente_id self; nodes := nodes self; edges := s; graph := graph self |}.
Definition set_graph (G : NX.DiGraph) (self : Env) : Env :=
  {| siguiente_id := siguiente_id self; nodes := nodes self; edges := edges self; graph := G |}.

(** A graph with three fresh empty objects. *)
Definition empty (next_id : Z) : Env :=
  {| siguiente_id := next_id; nodes := []; edges := []; graph := NX.empty |}.

(** Runs a ConceptNode constructor on the class attribute. *)
Definition with_siguiente_id {A : Type} (m : M Z A) : M Env A :=
  fun self => let (n, r) := m (siguiente_id self) in (set_siguiente_id n self, r).

(** [new_node.__dict__], in the order [__init__] assigns the attributes. *)
Definition node_dict (c : ConceptNode) : NX.attr_dict :=
  [("id_networkx", NX.AttrInt (id_networkx c));
   ("descriptors", NX.AttrList (descriptors c));
   ("synset_name", NX.AttrStr (synset_name c))].

(** The backing structure once [self.graph.add_edge] has run for
    [new_edge]. *)
Definition inserted (new_edge : ConceptEdge) (self : Env) : NX.DiGraph :=
  NX.add_edge (graph self) (id_networkx (source new_edge)) (id_networkx (target new_edge)).

(** [elem in self] *)
Definition __contains__ (self : Env) (elem : pyobj) : outcome bool :=
  match elem with
  | PyStr s =>
      let words := Py.split "." s in
      if Nat.eqb (List.length words) 3 then
        m <~ NX.NodeView_getattr "synset_name" ;;
        b <~ NX.in_call (graph self) m elem ;;
        Ret (if b then true else false)
      else
        m <~ NX.NodeView_getattr "descriptors" ;;
        b <~ NX.in_call (graph self) m elem ;;
        Ret (if b then true else false)
  | PyNode c =>
      Ret (Py.set_contains Node.same_hash Node.__eq__ (nodes self) c
           && NX.__contains__ (graph self) (PyInt (id_networkx c)))
  | PyEdge e =>
      Ret (Py.set_contains Edge.same_hash Edge.__eq__ (edges self) e
           && NX.has_edge (graph self) (id_networkx (source e)) (id_networkx (target e)))
  | _ => Ret false
  end.

(** [valid_graph_node]; the argument is a ConceptNode by its type. *)
Definition valid_graph_node (self : Env) (new_node : ConceptNode) : outcome bool :=
  if existsb (fun descriptor => NX.__contains__ (graph self) (PyStr descriptor))
             (descriptors new_node)
  then Raise (Exception "valid_graph_node: new node already in graph")
  else if NX.__contains__ (graph self) (PyStr (synset_name new_node))
  then Raise (Exception "valid_graph_node: synonym of new node already in graph")
  else Ret true.

Definition add_node (new_node : ConceptNode) : M Env unit :=
  self <- get ;;
  ok <- lift (valid_graph_node self new_node) ;;
  if ok then
    modify (fun self =>
              set_graph (NX.add_node (graph self) (id_networkx new_node) (node_dict new_node))
                        self) ;;;
    modify (fun self =>
              set_nodes (Py.set_add Node.same_hash Node.__eq__ (nodes self) new_node) self)
  else ret tt.

Section WithWordNet.
Variable wn : WordNet.

(** [valid_graph_edge]; the argument is a ConceptEdge by its type. *)
Definition valid_graph_edge (self : Env) (new_edge : ConceptEdge) : outcome bool :=
  src_in <~ __contains__ self (PyNode (source new_edge)) ;;
  if negb src_in
  then Raise (Exception "valid_graph_edge: source node not in graph")
  else
  tgt_in <~ __contains__ self (PyNode (target new_edge)) ;;
  if negb tgt_in
  then Raise (Exception "valid_graph_edge: target node not in graph")
  else
  s <~ synset wn (synset_name (target new_edge)) ;;
  match hypernym_paths s with
  | [] => Raise IndexError
  | targetNode_hypernym_synset_names :: _ =>
      if negb (Py.list_contains targetNode_hypernym_synset_names
                                (synset_name (source new_edge)))
      then Raise (Exception "valid_graph_edge: the source is not a hypernym of the target")
      else
      anc_t <~ NX.ancestors (graph self) (id_networkx (target new_edge)) ;;
      if NX.mem (id_networkx (source new_edge)) anc_t
      then Raise (Exception
        "valid_graph_edge: the graph already contains a path between the source and the target")
      else
      anc_s <~ NX.ancestors (graph self) (id_networkx (source new_edge)) ;;
      if NX.mem (id_networkx (target new_edge)) anc_s
      then Raise (Exception
        "valid_graph_edge: the graph already contains a path between the target and the source")
      else Ret true
  end.

Definition add_edge (new_edge : ConceptEdge) : M Env unit :=
  let u := id_networkx (source new_edge) in
  let v := id_networkx (target new_edge) in
  self <- get ;;
  ok <- lift (valid_graph_edge self new_edge) ;;
  (if ok then modify (fun self => set_graph (inserted new_edge self) self)
   else ret tt) ;;;
  self <- get ;;
  gens <- lift (NX.topological_generations (graph self)) ;;
  match gens with
  | [] => raise IndexError
  | roots :: _ =>
      if Nat.ltb 1 (List.length roots) then
        G <- lift (NX.remove_edge (graph self) u v) ;;
        modify (set_graph G) ;;;
        raise (Exception "add_edge: adding edge would create another root")
      else
        modify (fun self =>
                  set_edges (Py.set_add Edge.same_hash Edge.__eq__ (edges self) new_edge) self)
  end.

(** [add_descriptor_as_new_node]; with a [str] and a ConceptNode as
    arguments the first test never raises.  A failure of the
    constructors is printed and the call returns. *)
Definition add_descriptor_as_new_node (descriptor : string) (parent_node : ConceptNode)
  : M Env unit :=
  self <- get ;;
  parent_in <- lift (__contains__ self (PyNode parent_node)) ;;
  if negb parent_in
  then raise (Exception ("add_descriptor_as_new_node:" ++ Node.__str__ parent_node
                           ++ "not in current graph"))
  else
    fun self =>
      match with_siguiente_id (Node.from_descriptor wn descriptor) self with
      | (self', Raise _) => (self', Ret tt)
      | (self', Ret new_node) =>
          let new_edge := Edge.__init__ parent_node new_node None in
          (add_node new_node ;;; add_edge new_edge) self'
      end.

(** The object [target_node] may also be an element of [self.nodes]:
    what [add_descriptor] does to it is written back there. *)
Definition write_back (c : ConceptNode) (s : list ConceptNode) : list ConceptNode :=
  map (fun x => if id_networkx x =? id_networkx c then c else x) s.

Definition add_descriptor_to_node (descriptor : string) (target_node : ConceptNode)
  : M Env unit :=
  self <- get ;;
  if negb (NX.__contains__ (graph self) (PyNode target_node))
  then raise (Exception ("add_descriptor:" ++ Node.__str__ target_node
                           ++ "not in current graph"))
  else
    let target_node' := fst (try_print (Node.add_descriptor wn descriptor) target_node) in
    modify (fun self => set_nodes (write_back target_node' (nodes self)) self) ;;;
    self <- get ;;
    d <- lift (NX.node_attrs (NX._node (graph self)) (id_networkx target_node')) ;;
    a <- lift (NX.dict_get d "descriptors") ;;
    match a with
    | NX.AttrList l =>
        l' <- lift (Py.list_add l descriptor) ;;
        modify (fun self =>
                  set_graph {| NX._node := NX.node_set_attr (NX._node (graph self))
                                             (id_networkx target_node')
                                             "descriptors" (NX.AttrList l');
                               NX._succ := NX._succ (graph self) |} self)
    | _ => raise (AttributeError "object has no attribute 'add'")
    end.

End WithWordNet.

End Graph.

(** ** A small corpus and its concepts (scenarios A and B of the
    specification) *)
Module Scenario.

Definition entity_n_01 : Synset :=
  {| name := "entity.n.01"; pos := "n"; lemma_names := ["entity"];
     hypernym_paths := [["entity.n.01"]] |}.
Definition animal_n_01 : Synset :=
  {| name := "animal.n.01"; pos := "n"; lemma_names := ["animal"; "creature"];
     hypernym_paths := [["entity.n.01"; "animal.n.01"]] |}.
Definition dog_n_01 : Synset :=
  {| name := "dog.n.01"; pos := "n"; lemma_names := ["dog"];
     hypernym_paths := [["entity.n.01"; "animal.n.01"; "dog.n.01"]] |}.

Definition all_synsets : list Synset := [entity_n_01; animal_n_01; dog_n_01].

Definition wn : WordNet :=
  {| wn_synset := fun n => find (fun s => String.eqb (name s) n) all_synsets;
     wn_synsets := fun w => filter (fun s => existsb (String.eqb w) (lemma_names s))
                                   all_synsets |}.

Definition entity : ConceptNode :=
  {| id_networkx := 1; descriptors := ["entity"]; synset_name := "entity.n.01" |}.
Definition animal : ConceptNode :=
  {| id_networkx := 2; descriptors := ["animal"]; synset_name := "animal.n.01" |}.
Definition dog : ConceptNode :=
  {| id_networkx := 3; descriptors := ["dog"]; synset_name := "dog.n.01" |}.

(** A second object with the labels and the sense of [dog]. *)
Definition dog' : ConceptNode :=
  {| id_networkx := 4; descriptors := ["dog"]; synset_name := "dog.n.01" |}.

(** The graph after [add_node(entity)]. *)
Definition g_entity : Env := fst (Graph.add_node entity (Graph.empty 5)).
(** The graph after [add_node(entity)], [add_node(animal)]. *)
Definition g_two_nodes : Env := fst (Graph.add_node animal g_entity).
(** Scenario A: then [add_edge(entity -> animal)]. *)
Definition g_A : Env :=
  fst (Graph.add_edge wn (Edge.__init__ entity animal None) g_two_nodes).
(** The graph after [add_node(dog)] alone. *)
Definition g_dog : Env := fst (Graph.add_node dog (Graph.empty 5)).
(** The graph after [add_node(animal)] alone. *)
Definition g_animal : Env := fst (Graph.add_node animal (Graph.empty 5)).

(** [animal] with its two labels, in the two orders in which a set of
    two strings can be iterated. *)
Definition animal_creature : ConceptNode :=
  {| id_networkx := 6; descriptors := ["animal"; "creature"];
     synset_name := "animal.n.01" |}.
Definition creature_animal : ConceptNode :=
  {| id_networkx := 7; descriptors := ["creature"; "animal"];
     synset_name := "animal.n.01" |}.

(** An id with the hash of the id of [dog]. *)
Definition dog_far : ConceptNode :=
  {| id_networkx := 3 + (2 ^ 61 - 1); descriptors := ["dog"]; synset_name := "dog.n.01" |}.

End Scenario.

(** ** Objects and references

    A ConceptGraph instance holds three references.  [World] is the state
    of the interpreter: the class attribute and the objects that
    ConceptGraphs refer to, by kind. *)
Record World : Type := {
  w_siguiente_id : Z;
  node_sets : list (list ConceptNode);
  edge_sets : list (list ConceptEdge);
  digraphs : list NX.DiGraph
}.

Record ConceptGraph : Type := {
  nodes_ref : nat;
  edges_ref : nat;
  graph_ref : nat
}.

Module Heap.

Fixpoint list_set {A : Type} (l : list A) (i : nat) (x : A) : list A :=
  match l, i with
  | [], _ => []
  | _ :: l', O => x :: l'
  | y :: l', S i' => y :: list_set l' i' x
  end.

(** The state once the module has been executed: the [def] of
    [ConceptGraph.__init__] has evaluated its three default arguments,
    [set()], [set()] and [nx.DiGraph()], once; they are the objects at
    reference 0. *)
Definition class_definition : World :=
  {| w_siguiente_id := 1; node_sets := [[]]; edge_sets := [[]]; digraphs := [NX.empty] |}.

Definition default_ref : nat := 0.

(** [ConceptGraph(nodes, edges, graph)]; an argument left out is [None]
    here and stands for the default object. *)
Definition __init__ (nodes edges graph : option nat) : ConceptGraph :=
  {| nodes_ref := match nodes with Some r => r | None => default_ref end;
     edges_ref := match edges with Some r => r | None => default_ref end;
     graph_ref := match graph with Some r => r | None => default_ref end |}.

(** [set()] and [nx.DiGraph()] evaluated by a caller: a new object. *)
Definition new_node_set : M World nat :=
  fun w => ({| w_siguiente_id := w_siguiente_id w;
               node_sets := (node_sets w ++ [[]])%list;
               edge_sets := edge_sets w; digraphs := digraphs w |},
            Ret (List.length (node_sets w))).
Definition new_edge_set : M World nat :=
  fun w => ({| w_siguiente_id := w_siguiente_id w;
               node_sets := node_sets w;
               edge_sets := (edge_sets w ++ [[]])%list; digraphs := digraphs w |},
            Ret (List.length (edge_sets w))).
Definition new_digraph : M World nat :=
  fun w => ({| w_siguiente_id := w_siguiente_id w;
               node_sets := node_sets w; edge_sets := edge_sets w;
               digraphs := (digraphs w ++ [NX.empty])%list |},
            Ret (List.length (digraphs w))).

Definition allocated (w : World) (self : ConceptGraph) : Prop :=
  (nodes_ref self < List.length (node_sets w))%nat
  /\ (edges_ref self < List.length (edge_sets w))%nat
  /\ (graph_ref self < List.length (digraphs w))%nat.

(** What a method of [self] sees. *)
Definition load (self : ConceptGraph) (w : World) : Env :=
  {| siguiente_id := w_siguiente_id w;
     nodes := nth (nodes_ref self) (node_sets w) [];
     edges := nth (edges_ref self) (edge_sets w) [];
     graph := nth (graph_ref self) (digraphs w) NX.empty |}.

Definition store (self : ConceptGraph) (env : Env) (w : World) : World :=
  {| w_siguiente_id := siguiente_id env;
     node_sets := list_set (node_sets w) (nodes_ref self) (nodes env);
     edge_sets := list_set (edge_sets w) (edges_ref self) (edges env);
     digraphs := list_set (digraphs w) (graph_ref self) (graph env) |}.

(** A method call [self.m(...)]. *)
Definition call {A : Type} (self : ConceptGraph) (m : M Env A) : M World A :=
  fun w => let (env, r) := m (load self w) in (store self env w, r).

(** [elem in self] *)
Definition __contains__ (self : ConceptGraph) (elem : pyobj) : M World bool :=
  call self (fun env => (env, Graph.__contains__ env elem)).

End Heap.

(** ** Properties of the backing structure and of the graph *)

(** A walk of at least one edge. *)
Inductive path (E : list (Z * Z)) : Z -> Z -> Prop :=
| path_edge : forall u v, In (u, v) E -> path E u v
| path_step : forall u v w, In (u, v) E -> path E v w -> path E u w.

Definition acyclic (G : NX.DiGraph) : Prop := forall v, ~ path (NX._succ G) v v.

(** The nodes without incoming edge. *)
Definition roots (G : NX.DiGraph) : list Z := NX.zero_indegree (NX.nodes G) (NX._succ G).

(** The end points of the edges are nodes, as [DiGraph] keeps them. *)
Definition closed (G : NX.DiGraph) : Prop :=
  forall u v, In (u, v) (NX._succ G) -> In u (NX.nodes G) /\ In v (NX.nodes G).

(** What the reverse search keeps true from round to round: the visited
    nodes are distinct nodes of the graph, [s] first; each has a path to
    [s]; the frontier is visited; the predecessors of a visited node that
    is not on the frontier are visited. *)
Definition bfs_invariant (G : NX.DiGraph) (s : Z) (visited frontier : list Z) : Prop :=
  (exists rest, visited = s :: rest)
  /\ NoDup visited
  /\ (forall x, In x visited -> x = s \/ path (NX._succ G) x s)
  /\ incl frontier visited
  /\ (forall x p, In x visited -> ~ In x frontier -> In (p, x) (NX._succ G) -> In p visited)
  /\ incl visited (NX.nodes G).

(** The states reached from an empty graph by calls of [add_node] and
    [add_edge] that return, with ConceptNodes built in between. *)
Inductive reachable (wn : WordNet) : Env -> Prop :=
| reachable_empty : forall next_id, reachable wn (Graph.empty next_id)
| reachable_new_id : forall self next_id,
    reachable wn self -> reachable wn (Graph.set_siguiente_id next_id self)
| reachable_add_node : forall self c self',
    reachable wn self -> Graph.add_node c self = (self', Ret tt) -> reachable wn self'
| reachable_add_edge : forall self e self',
    reachable wn self -> Graph.add_edge wn e self = (self', Ret tt) -> reachable wn self'.

(** The same labels, as sets. *)
Definition same_labels (c1 c2 : ConceptNode) : Prop :=
  forall x, In x (descriptors c1) <-> In x (descriptors c2).

(** The kinds of failure the specification names, as the module raises
    them. *)
Module Kind.
Definition DuplicateLabel : exn :=
  Exception "valid_graph_node: new node already in graph".
Definition DuplicateSense : exn :=
  Exception "valid_graph_node: synonym of new node already in graph".
Definition NotSynonymous (descriptor : string) : exn :=
  Exception ("valid_add_descriptor:" ++ descriptor ++ "not a synonym").
Definition NotAHypernym : exn :=
  Exception "valid_graph_edge: the source is not a hypernym of the target".
Definition MultipleRoots : exn :=
  Exception "add_edge: adding edge would create another root".
(** As [add_descriptor_to_node] raises it. *)
Definition NodeNotFound (target_node : ConceptNode) : exn :=
  Exception ("add_descriptor:" ++ Node.__str__ target_node ++ "not in current graph").
End Kind.

(** The ways a call of [add_edge] ends, read off its text: a refusal by
    [valid_graph_edge]; after the insertion of the edge, a failure of the
    topological sort, of reading its first generation or of the removal; the
    removal and the "another root" exception; the return. *)
Inductive add_edge_ends (wn : WordNet) (new_edge : ConceptEdge) (self : Env)
  : Env -> outcome unit -> Prop :=
| ends_invalid : forall x,
    Graph.valid_graph_edge wn self new_edge = Raise x ->
    add_edge_ends wn new_edge self self (Raise x)
| ends_sort_raises : forall x,
    Graph.valid_graph_edge wn self new_edge = Ret true ->
    NX.topological_generations (Graph.inserted new_edge self) = Raise x ->
    add_edge_ends wn new_edge self
      (Graph.set_graph (Graph.inserted new_edge self) self) (Raise x)
| ends_no_generation :
    Graph.valid_graph_edge wn self new_edge = Ret true ->
    NX.topological_generations (Graph.inserted new_edge self) = Ret [] ->
    add_edge_ends wn new_edge self
      (Graph.set_graph (Graph.inserted new_edge self) self) (Raise IndexError)
| ends_removal_raises : forall first rest x,
    Graph.valid_graph_edge wn self new_edge = Ret true ->
    NX.topological_generations (Graph.inserted new_edge self) = Ret (first :: rest) ->
    (1 < List.length first)%nat ->
    NX.remove_edge (Graph.inserted new_edge self)
      (id_networkx (source new_edge)) (id_networkx (target new_edge)) = Raise x ->
    add_edge_ends wn new_edge self
      (Graph.set_graph (Graph.inserted new_edge self) self) (Raise x)
| ends_another_root : forall first rest G,
    Graph.valid_graph_edge wn self new_edge = Ret true ->
    NX.topological_generations (Graph.inserted new_edge self) = Ret (first :: rest) ->
    (1 < List.length first)%nat ->
    NX.remove_edge (Graph.inserted new_edge self)
      (id_networkx (source new_edge)) (id_networkx (target new_edge)) = Ret G ->
    add_edge_ends wn new_edge self (Graph.set_graph G self) (Raise Kind.MultipleRoots)
| ends_returns : forall first rest,
    Graph.valid_graph_edge wn self new_edge = Ret true ->
    NX.topological_generations (Graph.inserted new_edge self) = Ret (first :: rest) ->
    (List.length first <= 1)%nat ->
    add_edge_ends wn new_edge self
      (Graph.set_edges (Py.set_add Edge.same_hash Edge.__eq__ (edges self) new_edge)
         (Graph.set_graph (Graph.inserted new_edge self) self))
      (Ret tt).

(** ** The other methods of the three classes *)

Module ConceptNode_.

(** The class of the object bound to [descriptors]: the constructor is
    handed a set, the attribute [self.descriptors] is the list made of
    it. *)
Inductive collection : Type :=
| PySet (l : list string)
| PyList (l : list string).

Definition items (d : collection) : list string :=
  match d with
  | PySet l => l
  | PyList l => l
  end.

(** [valid_types] with its test [type(descriptors) == set] written out;
    [name] and the elements are [str] by their types. *)
Definition valid_types (descriptors : collection) (name : string) : bool :=
  negb (Nat.eqb (List.length (items descriptors)) 0)
  && match descriptors with
     | PySet _ => true
     | PyList _ => false
     end.

(** [self.is_valid()]: [and] does not evaluate [valid_args] when
    [valid_types] is false. *)
Definition is_valid (wn : WordNet) (self : ConceptNode) : outcome bool :=
  if valid_types (PyList (descriptors self)) (synset_name self)
  then Node.valid_args wn (descriptors self) (synset_name self)
  else Ret false.

(** [elem in self] *)
Definition __contains__ (self : ConceptNode) (elem : pyobj) : bool :=
  match elem with
  | PyStr s =>
      if Nat.eqb (List.length (Py.split "." s)) 3
      then String.eqb s (synset_name self)
      else Py.list_contains (descriptors self) s
  | _ => false
  end.

End ConceptNode_.

Module ConceptEdge_.

Definition __str__ (self : ConceptEdge) : string :=
  Node.__str__ (source self) ++ " --> " ++ Node.__str__ (target self).

(** [elem in self]: a ConceptNode is compared with the two ends, anything
    else with the label ([None] when there is none). *)
Definition __contains__ (self : ConceptEdge) (elem : pyobj) : bool :=
  match elem with
  | PyNode c => Node.__eq__ c (source self) || Node.__eq__ c (target self)
  | PyStr s =>
      match label self with
      | Some l => String.eqb s l
      | None => false
      end
  | PyNone =>
      match label self with
      | Some _ => false
      | None => true
      end
  | PyInt _ => false
  | PyEdge _ => false
  end.

End ConceptEdge_.

Module ConceptGraph_.

(** [getNodeFromId(id_networkx, a_nodeset)]; the loop that ends without a
    [return] gives [None]. *)
Definition getNodeFromId (id : Z) (a_nodeset : list ConceptNode) : option ConceptNode :=
  find (fun x => id =? id_networkx x) a_nodeset.

End ConceptGraph_.

(** The number of occurrences of a character in a string. *)
Fixpoint count_char (c : ascii) (s : string) : nat :=
  match s with
  | EmptyString => O
  | String c' s' => if Ascii.eqb c' c then S (count_char c s') else count_char c s'
  end.

(** The ids a counter that starts at 1 can give before [hash] wraps. *)
Definition small_id (z : Z) : Prop := 0 <= z < 2 ^ 61 - 1.

(** The node set and the edge set lie within the backing structure. *)
Definition within_backing (self : Env) : Prop :=
  (forall c, In c (nodes self) -> In (id_networkx c) (NX.nodes (graph self)))
  /\ (forall e, In e (edges self) ->
                In (id_networkx (source e), id_networkx (target e)) (NX._succ (graph self))).


(** What the constructor asks of its arguments: labels, not none, that
    WordNet lists under the noun synset of the given name. *)
Definition anchored (wn : WordNet) (ds : list string) (nm : string) : Prop :=
  ds <> []
  /\ exists s, wn_synset wn nm = Some s /\ pos s = "n"
       /\ forall x, In x ds -> exists s', In s' (wn_synsets wn x) /\ name s' = name s.

(** A corpus with a word of two senses and a verb (scenario D of the
    specification). *)
Module ScenarioD.

Definition bank_n_01 : Synset :=
  {| name := "bank.n.01"; pos := "n"; lemma_names := ["bank"];
     hypernym_paths := [["entity.n.01"; "bank.n.01"]] |}.
Definition depository_n_01 : Synset :=
  {| name := "depository_financial_institution.n.01"; pos := "n";
     lemma_names := ["depository_financial_institution"; "bank"];
     hypernym_paths := [["entity.n.01"; "depository_financial_institution.n.01"]] |}.
Definition run_v_01 : Synset :=
  {| name := "run.v.01"; pos := "v"; lemma_names := ["run"];
     hypernym_paths := [["run.v.01"]] |}.

Definition all_synsets : list Synset :=
  (Scenario.all_synsets ++ [bank_n_01; depository_n_01; run_v_01])%list.

Definition wn : WordNet :=
  {| wn_synset := fun n => find (fun s => String.eqb (name s) n) all_synsets;
     wn_synsets := fun w => filter (fun s => existsb (String.eqb w) (lemma_names s))
                                   all_synsets |}.

End ScenarioD.

(** * Theorems *)

(** ** Scenario A runs as the specification tells *)
Example scenario_A_runs :
  Graph.add_node Scenario.entity (Graph.empty 5) = (Scenario.g_entity, Ret tt)
  /\ Graph.add_node Scenario.animal Scenario.g_entity = (Scenario.g_two_nodes, Ret tt)
  /\ Graph.add_edge Scenario.wn (Edge.__init__ Scenario.entity Scenario.animal None)
       Scenario.g_two_nodes = (Scenario.g_A, Ret tt)
  /\ NX._succ (graph Scenario.g_A) = [(1, 2)]
  /\ roots (graph Scenario.g_A) = [1].
Proof. vm_compute. repeat split. Qed.

(** Scenarios B and C: the redundant edge and the cycle are refused and
    leave the graph as it was. *)
Example scenario_B_C_run :
  let g1 := fst (Graph.add_node Scenario.dog Scenario.g_A) in
  let g2 := fst (Graph.add_edge Scenario.wn (Edge.__init__ Scenario.animal Scenario.dog None) g1) in
  NX._succ (graph g2) = [(1, 2); (2, 3)]
  /\ Graph.add_edge Scenario.wn (Edge.__init__ Scenario.entity Scenario.dog None) g2
     = (g2, Raise (Exception
         "valid_graph_edge: the graph already contains a path between the source and the target"))
  /\ Graph.add_edge Scenario.wn (Edge.__init__ Scenario.dog Scenario.entity None) g2
     = (g2, Raise (Exception
         "valid_graph_edge: the source is not a hypernym of the target")).
Proof. vm_compute. repeat split. Qed.

(** With three nodes and the edge entity -> animal missing, the edge
    animal -> dog would leave two roots: it is inserted, removed again and
    refused. *)
Example another_root_runs :
  let g := fst (Graph.add_node Scenario.dog Scenario.g_two_nodes) in
  NX.nodes (graph g) = [1; 2; 3]
  /\ Graph.add_edge Scenario.wn (Edge.__init__ Scenario.animal Scenario.dog None) g
     = (g, Raise Kind.MultipleRoots).
Proof. vm_compute. repeat split. Qed.

(** ** ConceptNode *)

Lemma list_eq_string_iff : forall l1 l2 : list string,
  Py.list_eq String.eqb l1 l2 = true <-> l1 = l2.
Proof.
  induction l1 as [|x l1 IH]; destruct l2 as [|y l2]; simpl; split; intro H;
    try reflexivity; try discriminate.
  - apply andb_true_iff in H. destruct H as [Hx Hl].
    apply String.eqb_eq in Hx. apply IH in Hl. now subst.
  - injection H as -> ->. apply andb_true_iff. split.
    + apply String.eqb_refl.
    + now apply IH.
Qed.

(** [==] on ConceptNodes looks at the label list and at the sense, not at
    the id. *)
Lemma node_eq_iff : forall c1 c2,
  Node.__eq__ c1 c2 = true
  <-> descriptors c1 = descriptors c2 /\ synset_name c1 = synset_name c2.
Proof.
  intros c1 c2. unfold Node.__eq__. rewrite andb_true_iff, list_eq_string_iff, String.eqb_eq.
  reflexivity.
Qed.

Lemma node_eq_refl : forall c, Node.__eq__ c c = true.
Proof. intro c. apply node_eq_iff. split; reflexivity. Qed.

Lemma node_same_hash_refl : forall c, Node.same_hash c c = true.
Proof. intro c. unfold Node.same_hash. apply Z.eqb_refl. Qed.

(** A label already present: nothing happens. *)
Lemma add_descriptor_present : forall wn self descriptor,
  Py.list_contains (descriptors self) descriptor = true ->
  Node.add_descriptor wn descriptor self = (self, Ret tt).
Proof.
  intros wn self descriptor H. unfold Node.add_descriptor, bind, get. simpl.
  rewrite H. reflexivity.
Qed.

(** A label that is absent and whose synsets miss the sense of the node:
    the call raises and the node keeps its labels. *)
Lemma add_descriptor_not_synonym : forall wn self descriptor s,
  Py.list_contains (descriptors self) descriptor = false ->
  wn_synset wn (synset_name self) = Some s ->
  existsb (Synset_eq s) (wn_synsets wn descriptor) = false ->
  Node.add_descriptor wn descriptor self = (self, Raise (Kind.NotSynonymous descriptor)).
Proof.
  intros wn self descriptor s Hin Hs Hsyn.
  unfold Node.add_descriptor, bind, get, lift, Node.valid_add_descriptor, synset. simpl.
  rewrite Hin, Hs. simpl. rewrite Hsyn. reflexivity.
Qed.

(** A label that is absent and a synonym: the call reaches [list.add] and
    raises [AttributeError]; the label is not appended. *)
Lemma add_descriptor_synonym : forall wn self descriptor s,
  Py.list_contains (descriptors self) descriptor = false ->
  wn_synset wn (synset_name self) = Some s ->
  existsb (Synset_eq s) (wn_synsets wn descriptor) = true ->
  Node.add_descriptor wn descriptor self
  = (self, Raise (AttributeError "'list' object has no attribute 'add'")).
Proof.
  intros wn self descriptor s Hin Hs Hsyn.
  unfold Node.add_descriptor, bind, get, lift, Node.valid_add_descriptor, synset. simpl.
  rewrite Hin, Hs. simpl. rewrite Hsyn. reflexivity.
Qed.

(** No call of [add_descriptor] changes the node. *)
Lemma add_descriptor_keeps : forall wn descriptor self,
  fst (Node.add_descriptor wn descriptor self) = self.
Proof.
  intros wn descriptor self.
  unfold Node.add_descriptor, bind, get, lift, Node.valid_add_descriptor, synset, obind, ret.
  simpl.
  destruct (Py.list_contains (descriptors self) descriptor); [reflexivity|].
  destruct (wn_synset wn (synset_name self)); [|reflexivity].
  destruct (negb (existsb (Synset_eq s) (wn_synsets wn descriptor))); reflexivity.
Qed.

(** C8.  [addLabel] with a label that is absent from the Concept and that
    the lexicon lists under the Concept's canonical sense does not append
    it: [add_descriptor("creature")] on the Concept [animal] with the one
    label "animal" raises [AttributeError] and the label list stays
    ["animal"].  (With a label already present the call is a no-op, with a
    label that is no synonym it raises the NotSynonymous exception:
    [add_descriptor_present], [add_descriptor_not_synonym].) *)
Theorem add_descriptor_synonym_not_appended :
  Py.list_contains (descriptors Scenario.animal) "creature" = false
  /\ existsb (Synset_eq Scenario.animal_n_01) (wn_synsets Scenario.wn "creature") = true
  /\ Node.add_descriptor Scenario.wn "creature" Scenario.animal
     = (Scenario.animal, Raise (AttributeError "'list' object has no attribute 'add'"))
  /\ descriptors (fst (Node.add_descriptor Scenario.wn "creature" Scenario.animal))
     = ["animal"].
Proof. vm_compute. repeat split. Qed.

(** ** ConceptEdge *)

(** An edge without label is equal to every edge. *)
Lemma edge_eq_no_label : forall self other,
  label self = None -> Edge.__eq__ self other = true.
Proof. intros self other H. unfold Edge.__eq__. now rewrite H. Qed.

(** With a label, equality is the three-way comparison. *)
Lemma edge_eq_with_label : forall self other l,
  label self = Some l ->
  Edge.__eq__ self other
  = Node.__eq__ (source self) (source other) && Node.__eq__ (target self) (target other)
    && Edge.label_eq (label self) (label other).
Proof. intros self other l H. unfold Edge.__eq__. now rewrite H. Qed.

(** C4.  Two Relations without label and with different end points are
    equal for [==]: the edge entity -> animal and the edge animal -> entity
    compare equal although their sources differ and their targets
    differ. *)
Theorem edge_eq_ignores_endpoints_without_label :
  let e1 := Edge.__init__ Scenario.entity Scenario.animal None in
  let e2 := Edge.__init__ Scenario.animal Scenario.entity None in
  Node.__eq__ (source e1) (source e2) = false
  /\ Node.__eq__ (target e1) (target e2) = false
  /\ label e1 = None /\ label e2 = None
  /\ Edge.__eq__ e1 e2 = true.
Proof. vm_compute. repeat split. Qed.

(** ** ConceptGraph: membership of strings *)

(** The backing structure holds no [str]: its keys are ids. *)
Lemma digraph_contains_str : forall G s, NX.__contains__ G (PyStr s) = false.
Proof. reflexivity. Qed.

Lemma digraph_contains_node : forall G c, NX.__contains__ G (PyNode c) = false.
Proof. reflexivity. Qed.

(** [elem in self] raises [AttributeError] for every string, whatever the
    graph holds. *)
Lemma contains_str_raises : forall self s,
  Graph.__contains__ self (PyStr s)
  = Raise (AttributeError "'NodeView' object has no attribute 'synset_name'")
  \/ Graph.__contains__ self (PyStr s)
     = Raise (AttributeError "'NodeView' object has no attribute 'descriptors'").
Proof.
  intros self s. unfold Graph.__contains__.
  destruct (Nat.eqb (List.length (Py.split "." s)) 3); [left | right]; reflexivity.
Qed.

(** C9.  The [contains] query does not return a boolean for a string: in
    the graph of scenario A, which has a node with the label "animal" and
    the sense "animal.n.01", asking for the label and asking for the sense
    both raise [AttributeError]. *)
Theorem contains_string_raises :
  existsb (fun c => Py.list_contains (descriptors c) "animal") (nodes Scenario.g_A) = true
  /\ existsb (fun c => String.eqb (synset_name c) "animal.n.01") (nodes Scenario.g_A) = true
  /\ Graph.__contains__ Scenario.g_A (PyStr "animal")
     = Raise (AttributeError "'NodeView' object has no attribute 'descriptors'")
  /\ Graph.__contains__ Scenario.g_A (PyStr "animal.n.01")
     = Raise (AttributeError "'NodeView' object has no attribute 'synset_name'").
Proof. vm_compute. repeat split. Qed.

(** ** ConceptGraph: add_node *)

(** [valid_graph_node] accepts every ConceptNode. *)
Lemma valid_graph_node_accepts : forall self c, Graph.valid_graph_node self c = Ret true.
Proof.
  intros self c. unfold Graph.valid_graph_node.
  replace (existsb _ (descriptors c)) with false; [reflexivity|].
  induction (descriptors c) as [|d l IH]; simpl; [reflexivity | exact IH].
Qed.

(** [add_node] returns for every ConceptNode, with the node inserted in
    the backing structure and added to the node set. *)
Lemma add_node_returns : forall self c,
  Graph.add_node c self
  = (Graph.set_nodes (Py.set_add Node.same_hash Node.__eq__ (nodes self) c)
       (Graph.set_graph (NX.add_node (graph self) (id_networkx c) (Graph.node_dict c)) self),
     Ret tt).
Proof.
  intros self c. unfold Graph.add_node, bind, get, lift, modify.
  rewrite valid_graph_node_accepts. reflexivity.
Qed.

(** C1.  [addNode] of a Concept that shares its label and its sense with a
    node of the graph does not fail: on the graph that holds [dog], with
    the label "dog" and the sense "dog.n.01", [add_node] of a second
    Concept with that label and that sense returns, and the graph then has
    two nodes in its node set and two vertices in its backing
    structure. *)
Theorem add_node_accepts_duplicate :
  nodes Scenario.g_dog = [Scenario.dog]
  /\ Py.list_contains (descriptors Scenario.dog) "dog" = true
  /\ Py.list_contains (descriptors Scenario.dog') "dog" = true
  /\ synset_name Scenario.dog = synset_name Scenario.dog'
  /\ snd (Graph.add_node Scenario.dog' Scenario.g_dog) = Ret tt
  /\ nodes (fst (Graph.add_node Scenario.dog' Scenario.g_dog)) = [Scenario.dog; Scenario.dog']
  /\ NX.nodes (graph (fst (Graph.add_node Scenario.dog' Scenario.g_dog))) = [3; 4].
Proof. vm_compute. repeat split. Qed.

(** ** ConceptGraph: add_descriptor_to_node *)

(** [add_descriptor_to_node] raises its "not in current graph" exception
    for every node and every graph, and changes nothing. *)
Lemma add_descriptor_to_node_raises : forall wn descriptor target_node self,
  Graph.add_descriptor_to_node wn descriptor target_node self
  = (self, Raise (Kind.NodeNotFound target_node)).
Proof. reflexivity. Qed.

(** C6.  [addDescriptorToNode] fails with NodeNotFound for a Concept that
    is a member of the graph: [animal] is a member of the graph of scenario
    A and "creature" is a synonym of its sense, yet the call raises the
    "not in current graph" exception and the label set stored in the
    backing structure is still the one label "animal". *)
Theorem add_descriptor_to_node_member_not_found :
  Graph.__contains__ Scenario.g_A (PyNode Scenario.animal) = Ret true
  /\ existsb (Synset_eq Scenario.animal_n_01) (wn_synsets Scenario.wn "creature") = true
  /\ Graph.add_descriptor_to_node Scenario.wn "creature" Scenario.animal Scenario.g_A
     = (Scenario.g_A,
        Raise (Exception "add_descriptor:2( ['animal'], animal.n.01 )not in current graph"))
  /\ obind (NX.node_attrs (NX._node (graph Scenario.g_A)) 2)
           (fun d => NX.dict_get d "descriptors")
     = Ret (NX.AttrList ["animal"]).
Proof. vm_compute. repeat split. Qed.

(** ** ConceptGraph: add_edge *)

(** C3.  A failing [addEdge] can leave the backing structure changed: on
    the graph that holds [entity] alone, [add_edge] of the Relation from
    [entity] to itself passes the validation, inserts the edge (1, 1),
    fails with [NetworkXUnfeasible] in the root-count check and leaves the
    edge in the backing structure, which had no edge before. *)
Theorem add_edge_failure_keeps_inserted_edge :
  let e := Edge.__init__ Scenario.entity Scenario.entity None in
  NX._succ (graph Scenario.g_entity) = []
  /\ Graph.valid_graph_edge Scenario.wn Scenario.g_entity e = Ret true
  /\ snd (Graph.add_edge Scenario.wn e Scenario.g_entity) = Raise NetworkXUnfeasible
  /\ NX._succ (graph (fst (Graph.add_edge Scenario.wn e Scenario.g_entity))) = [(1, 1)]
  /\ edges (fst (Graph.add_edge Scenario.wn e Scenario.g_entity)) = [].
Proof. vm_compute. repeat split. Qed.

(** ** ConceptNode: equality and membership in the node set *)

Lemma set_contains_node_iff : forall s c,
  Py.set_contains Node.same_hash Node.__eq__ s c = true
  <-> exists y, In y s /\ Node.__hash__ y = Node.__hash__ c /\ Node.__eq__ y c = true.
Proof.
  intros s c. unfold Py.set_contains. rewrite existsb_exists.
  split; intros [y [Hin H]]; exists y.
  - apply andb_true_iff in H. destruct H as [Hh He].
    apply Z.eqb_eq in Hh. auto.
  - split; [exact Hin|]. destruct H as [Hh He].
    apply andb_true_iff. split; [now apply Z.eqb_eq | exact He].
Qed.

Lemma node_eq_trans : forall a b c,
  Node.__eq__ a b = true -> Node.__eq__ b c = true -> Node.__eq__ a c = true.
Proof.
  intros a b c Hab Hbc. apply node_eq_iff in Hab. apply node_eq_iff in Hbc.
  apply node_eq_iff. destruct Hab, Hbc. split; congruence.
Qed.

(** C5, as the code has it.  Two Concepts with the same label list (the
    same labels in the same order) and the same canonical sense are equal
    whatever their ids; and when the node set of a graph contains one of
    them, it contains the other provided the two ids have the same hash:
    membership in the node set goes by the hash of the id and then by
    value equality. *)
Theorem node_eq_by_value_membership_by_id_hash :
  forall (c1 c2 : ConceptNode) (self : Env),
    descriptors c1 = descriptors c2 ->
    synset_name c1 = synset_name c2 ->
    Node.__eq__ c1 c2 = true
    /\ (Node.__hash__ c1 = Node.__hash__ c2 ->
        Py.set_contains Node.same_hash Node.__eq__ (nodes self) c1 = true ->
        Py.set_contains Node.same_hash Node.__eq__ (nodes self) c2 = true).
Proof.
  intros c1 c2 self Hd Hs.
  assert (Heq : Node.__eq__ c1 c2 = true) by (apply node_eq_iff; auto).
  split; [exact Heq|].
  intros Hh Hin. apply set_contains_node_iff in Hin.
  destruct Hin as [y [Hy [Hyh Hye]]].
  apply set_contains_node_iff. exists y. split; [exact Hy|]. split.
  - congruence.
  - eapply node_eq_trans; eauto.
Qed.

Lemma node_eq_by_value_membership_by_id_hash_witness :
  Node.__eq__ Scenario.dog Scenario.dog_far = true
  /\ Py.set_contains Node.same_hash Node.__eq__ (nodes Scenario.g_dog) Scenario.dog_far = true.
Proof.
  destruct (node_eq_by_value_membership_by_id_hash
              Scenario.dog Scenario.dog_far Scenario.g_dog eq_refl eq_refl) as [Heq Hin].
  split; [exact Heq | apply Hin; reflexivity].
Defined.

(** C5 fails as stated, twice.  The Concepts [dog] and [dog'] have the same
    labels and the same sense and are equal, the node set of the graph
    contains [dog], and it does not contain [dog'], whose id is another.
    And two Concepts with the labels "animal" and "creature" listed in
    different orders have the same label set and the same sense, and are
    not equal. *)
Lemma node_membership_by_value_counterexample :
  (same_labels Scenario.dog Scenario.dog'
   /\ synset_name Scenario.dog = synset_name Scenario.dog'
   /\ Node.__eq__ Scenario.dog Scenario.dog' = true
   /\ Py.set_contains Node.same_hash Node.__eq__ (nodes Scenario.g_dog) Scenario.dog = true
   /\ Py.set_contains Node.same_hash Node.__eq__ (nodes Scenario.g_dog) Scenario.dog' = false
   /\ Graph.__contains__ Scenario.g_dog (PyNode Scenario.dog') = Ret false)
  /\ (same_labels Scenario.animal_creature Scenario.creature_animal
      /\ synset_name Scenario.animal_creature = synset_name Scenario.creature_animal
      /\ Node.__eq__ Scenario.animal_creature Scenario.creature_animal = false).
Proof.
  split.
  - split; [intro x; reflexivity|]. vm_compute. repeat split.
  - split; [|vm_compute; repeat split].
    intro x. simpl. tauto.
Qed.

(** ** Shared default arguments *)

Lemma nth_list_set : forall (A : Type) (l : list A) (i : nat) (x d : A),
  (i < List.length l)%nat -> nth i (Heap.list_set l i x) d = x.
Proof.
  induction l as [|y l IH]; intros i x d Hi; simpl in Hi; [lia|].
  destruct i as [|i]; simpl; [reflexivity|]. apply IH. lia.
Qed.

Lemma load_store : forall self env w,
  Heap.allocated w self -> Heap.load self (Heap.store self env w) = env.
Proof.
  intros self env w [Hn [He Hg]]. unfold Heap.load, Heap.store. simpl.
  rewrite !nth_list_set by assumption. destruct env; reflexivity.
Qed.

Lemma set_add_contains_node : forall s c,
  Py.set_contains Node.same_hash Node.__eq__ (Py.set_add Node.same_hash Node.__eq__ s c) c = true.
Proof.
  intros s c. unfold Py.set_add.
  destruct (Py.set_contains Node.same_hash Node.__eq__ s c) eqn:H; [exact H|].
  unfold Py.set_contains. rewrite existsb_app. simpl.
  rewrite node_same_hash_refl, node_eq_refl. simpl. apply orb_true_r.
Qed.

Lemma mem_true_iff : forall x l, NX.mem x l = true <-> In x l.
Proof.
  intros x l. unfold NX.mem. rewrite existsb_exists. split.
  - intros [y [Hy Hxy]]. apply Z.eqb_eq in Hxy. now subst.
  - intro H. exists x. split; [exact H | apply Z.eqb_refl].
Qed.

Lemma nodes_node_update : forall l n a,
  map fst (NX.node_update l n a) = map fst l.
Proof.
  induction l as [|[m d] l IH]; intros n a; simpl; [reflexivity|].
  destruct (m =? n); simpl; [reflexivity | now rewrite IH].
Qed.

(** [G.add_node] keeps the nodes there are and makes [n] one of them. *)
Lemma nodes_add_node : forall G n a x,
  In x (NX.nodes (NX.add_node G n a)) <-> In x (NX.nodes G) \/ x = n.
Proof.
  intros G n a x. unfold NX.add_node.
  destruct (NX.has_node G n) eqn:H; unfold NX.nodes; simpl.
  - rewrite nodes_node_update. apply mem_true_iff in H. split; [auto|].
    intros [Hx | ->]; [exact Hx | exact H].
  - rewrite map_app, in_app_iff. simpl. intuition.
Qed.

Lemma has_node_add_node : forall G n a, NX.has_node (NX.add_node G n a) n = true.
Proof.
  intros G n a. apply mem_true_iff. apply nodes_add_node. now right.
Qed.

(** After [add_node(c)], [c in self] holds. *)
Lemma add_node_then_contains : forall self c self',
  Graph.add_node c self = (self', Ret tt) ->
  Graph.__contains__ self' (PyNode c) = Ret true.
Proof.
  intros self c self' H. rewrite add_node_returns in H. injection H as <-.
  unfold Graph.__contains__. simpl.
  rewrite set_add_contains_node, has_node_add_node. reflexivity.
Qed.

(** C10.  Two ConceptGraphs built without arguments hold the same three
    references, those of the default objects; so after [add_node(c)] has
    returned on the first, [c in] the second is true. *)
Theorem default_arguments_are_shared :
  forall (w w' : World) (c : ConceptNode),
    let g1 := Heap.__init__ None None None in
    let g2 := Heap.__init__ None None None in
    Heap.allocated w g1 ->
    Heap.call g1 (Graph.add_node c) w = (w', Ret tt) ->
    nodes_ref g1 = nodes_ref g2 /\ edges_ref g1 = edges_ref g2 /\ graph_ref g1 = graph_ref g2
    /\ snd (Heap.__contains__ g2 (PyNode c) w') = Ret true.
Proof.
  intros w w' c g1 g2 Halloc Hcall.
  repeat (split; [reflexivity|]).
  unfold Heap.call in Hcall.
  destruct (Graph.add_node c (Heap.load g1 w)) as [env r] eqn:Hadd.
  injection Hcall as <- ->.
  unfold Heap.__contains__, Heap.call.
  fold g1. rewrite load_store by exact Halloc.
  rewrite (add_node_then_contains _ _ _ Hadd). reflexivity.
Qed.

Lemma default_arguments_are_shared_witness :
  let g := Heap.__init__ None None None in
  nodes_ref g = nodes_ref g /\ edges_ref g = edges_ref g /\ graph_ref g = graph_ref g
  /\ snd (Heap.__contains__ g (PyNode Scenario.entity)
            (fst (Heap.call g (Graph.add_node Scenario.entity) Heap.class_definition)))
     = Ret true.
Proof.
  apply (default_arguments_are_shared Heap.class_definition _ Scenario.entity).
  - unfold Heap.allocated. simpl. unfold Heap.default_ref. lia.
  - reflexivity.
Defined.

(** Two ConceptGraphs built on objects of their own share nothing. *)
Example fresh_arguments_are_not_shared :
  let w0 := Heap.class_definition in
  let '(w1, _) := (Heap.new_node_set ;;; Heap.new_edge_set ;;; Heap.new_digraph)%py w0 in
  let g1 := Heap.__init__ None None None in
  let g2 := Heap.__init__ (Some 1%nat) (Some 1%nat) (Some 1%nat) in
  let w2 := fst (Heap.call g1 (Graph.add_node Scenario.entity) w1) in
  snd (Heap.__contains__ g1 (PyNode Scenario.entity) w2) = Ret true
  /\ snd (Heap.__contains__ g2 (PyNode Scenario.entity) w2) = Ret false.
Proof. vm_compute. split; reflexivity. Qed.

(** ** ConceptGraph: how add_edge ends *)

Lemma valid_graph_edge_true : forall wn self e b,
  Graph.valid_graph_edge wn self e = Ret b -> b = true.
Proof.
  intros wn self e b. unfold Graph.valid_graph_edge, obind, synset.
  repeat match goal with
         | |- context [match ?x with _ => _ end] => destruct x; try discriminate
         end.
  congruence.
Qed.

Lemma add_edge_inv : forall wn e self self' r,
  Graph.add_edge wn e self = (self', r) -> add_edge_ends wn e self self' r.
Proof.
  intros wn e self self' r.
  unfold Graph.add_edge, bind, get, lift, modify, raise, ret.
  destruct (Graph.valid_graph_edge wn self e) as [b|x] eqn:Hv.
  2:{ intro H. injection H as <- <-. now constructor. }
  pose proof (valid_graph_edge_true _ _ _ _ Hv) as ->.
  simpl.
  destruct (NX.topological_generations (Graph.inserted e self)) as [gens|x] eqn:Ht.
  2:{ intro H. injection H as <- <-. now apply ends_sort_raises. }
  destruct gens as [|first rest].
  { intro H. injection H as <- <-. now apply ends_no_generation. }
  destruct (Nat.ltb 1 (List.length first)) eqn:Hlen.
  - apply Nat.ltb_lt in Hlen.
    destruct (NX.remove_edge (Graph.inserted e self) (id_networkx (source e))
                (id_networkx (target e))) as [G|x] eqn:Hr;
      intro H; injection H as <- <-.
    + change (add_edge_ends wn e self (Graph.set_graph G self) (Raise Kind.MultipleRoots)).
      eapply ends_another_root; eauto.
    + eapply ends_removal_raises; eauto.
  - apply Nat.ltb_ge in Hlen. intro H. injection H as <- <-.
    eapply ends_returns; eauto.
Qed.

Lemma nodes_add_edge : forall G u v x,
  In x (NX.nodes G) -> In x (NX.nodes (NX.add_edge G u v)).
Proof.
  intros G u v x H. unfold NX.add_edge.
  set (G1 := if NX.has_node G u then G else NX.add_node G u []).
  assert (H1 : In x (NX.nodes G1)).
  { unfold G1. destruct (NX.has_node G u); [exact H|]. apply nodes_add_node. now left. }
  set (G2 := if NX.has_node G1 v then G1 else NX.add_node G1 v []).
  assert (H2 : In x (NX.nodes G2)).
  { unfold G2. destruct (NX.has_node G1 v); [exact H1|]. apply nodes_add_node. now left. }
  destruct (NX.has_edge G2 u v); exact H2.
Qed.

Lemma remove_edge_nodes : forall G u v G',
  NX.remove_edge G u v = Ret G' -> NX._node G' = NX._node G.
Proof.
  intros G u v G'. unfold NX.remove_edge.
  destruct (NX.has_edge G u v); [|discriminate].
  intro H. injection H as <-. reflexivity.
Qed.

(** Whatever the end of [add_edge], the node set and the vertices of the
    backing structure stay; unless it returns, the edge set stays too. *)
Lemma add_edge_frame : forall wn e self self' r,
  add_edge_ends wn e self self' r ->
  nodes self' = nodes self
  /\ siguiente_id self' = siguiente_id self
  /\ (forall n, In n (NX.nodes (graph self)) -> In n (NX.nodes (graph self')))
  /\ (r <> Ret tt -> edges self' = edges self).
Proof.
  intros wn e self self' r H.
  destruct H; simpl; repeat split; auto; try congruence;
    try (intros n Hn; now apply nodes_add_edge).
  intros n Hn. unfold NX.nodes.
  rewrite (remove_edge_nodes _ _ _ _ H2). now apply nodes_add_edge.
Qed.

(** ** ConceptGraph: add_descriptor_as_new_node *)

(** C7, as the code has it.  When, in [add_descriptor_as_new_node], the
    parent is a member, the new Concept is built, [add_node] returns and
    [add_edge] then raises, the exception is raised to the caller and the
    new Concept stays in the graph: it is a member (in the node set and in
    the backing structure); the edge set is the one before the call. *)
Theorem add_descriptor_as_new_node_keeps_node :
  forall wn descriptor parent_node self self0 new_node self1 self2 x,
    Graph.__contains__ self (PyNode parent_node) = Ret true ->
    Graph.with_siguiente_id (Node.from_descriptor wn descriptor) self = (self0, Ret new_node) ->
    Graph.add_node new_node self0 = (self1, Ret tt) ->
    Graph.add_edge wn (Edge.__init__ parent_node new_node None) self1 = (self2, Raise x) ->
    Graph.add_descriptor_as_new_node wn descriptor parent_node self = (self2, Raise x)
    /\ Graph.__contains__ self2 (PyNode new_node) = Ret true
    /\ edges self2 = edges self.
Proof.
  intros wn descriptor parent_node self self0 new_node self1 self2 x Hp Hnew Hnode Hedge.
  split; [|split].
  - unfold Graph.add_descriptor_as_new_node, bind, get, lift.
    rewrite Hp. simpl. rewrite Hnew.
    unfold bind. rewrite Hnode. exact Hedge.
  - pose proof (add_node_then_contains _ _ _ Hnode) as Hc.
    apply add_edge_inv, add_edge_frame in Hedge.
    destruct Hedge as [Hn [_ [Hg _]]].
    unfold Graph.__contains__ in *. rewrite Hn.
    injection Hc as Hc. apply andb_true_iff in Hc. destruct Hc as [Hc1 Hc2].
    rewrite Hc1. simpl. f_equal.
    apply mem_true_iff, Hg, mem_true_iff. exact Hc2.
  - apply add_edge_inv, add_edge_frame in Hedge.
    destruct Hedge as [_ [_ [_ He]]]. rewrite He by discriminate.
    rewrite add_node_returns in Hnode. injection Hnode as <-. simpl.
    unfold Graph.with_siguiente_id in Hnew.
    destruct (Node.from_descriptor wn descriptor (siguiente_id self)) as [n r].
    injection Hnew as <- _. reflexivity.
Qed.

Lemma add_descriptor_as_new_node_keeps_node_witness :
  let new_node := {| id_networkx := 5; descriptors := ["entity"];
                     synset_name := "entity.n.01" |} in
  let self2 := fst (Graph.add_descriptor_as_new_node Scenario.wn "entity" Scenario.animal
                      Scenario.g_animal) in
  Graph.add_descriptor_as_new_node Scenario.wn "entity" Scenario.animal Scenario.g_animal
  = (self2, Raise Kind.NotAHypernym)
  /\ Graph.__contains__ self2 (PyNode new_node) = Ret true
  /\ edges self2 = edges Scenario.g_animal.
Proof.
  apply (add_descriptor_as_new_node_keeps_node Scenario.wn "entity" Scenario.animal
           Scenario.g_animal
           (Graph.set_siguiente_id 6 Scenario.g_animal)
           {| id_networkx := 5; descriptors := ["entity"]; synset_name := "entity.n.01" |}
           (fst (Graph.add_node
                   {| id_networkx := 5; descriptors := ["entity"];
                      synset_name := "entity.n.01" |}
                   (Graph.set_siguiente_id 6 Scenario.g_animal))));
    reflexivity.
Defined.

(** C7 fails as stated.  On the graph that holds [animal] alone,
    [add_descriptor_as_new_node("entity", animal)] builds the Concept of
    "entity", adds it, and fails in [add_edge], since animal is no hypernym
    of entity; afterwards the new Concept is in the node set and in the
    backing structure. *)
Lemma add_descriptor_as_new_node_counterexample :
  let new_node := {| id_networkx := 5; descriptors := ["entity"];
                     synset_name := "entity.n.01" |} in
  let self0 := Graph.set_siguiente_id 6 Scenario.g_animal in
  let self1 := fst (Graph.add_node new_node self0) in
  let self2 := fst (Graph.add_descriptor_as_new_node Scenario.wn "entity" Scenario.animal
                      Scenario.g_animal) in
  Graph.with_siguiente_id (Node.from_descriptor Scenario.wn "entity") Scenario.g_animal
  = (self0, Ret new_node)
  /\ Graph.add_node new_node self0 = (self1, Ret tt)
  /\ Graph.add_edge Scenario.wn (Edge.__init__ Scenario.animal new_node None) self1
     = (self2, Raise Kind.NotAHypernym)
  /\ snd (Graph.add_descriptor_as_new_node Scenario.wn "entity" Scenario.animal
            Scenario.g_animal) = Raise Kind.NotAHypernym
  /\ nodes self2 = [Scenario.animal; new_node]
  /\ NX.nodes (graph self2) = [2; 5]
  /\ Graph.__contains__ self2 (PyNode new_node) = Ret true.
Proof. vm_compute. repeat split. Qed.

(** ** The backing structure: topological sort and cycles *)

Lemma in_degree_pos : forall E u v, In (u, v) E -> NX.in_degree E v <> O.
Proof.
  intros E u v H. unfold NX.in_degree.
  assert (Hf : In (u, v) (filter (fun e => snd e =? v) E)).
  { apply filter_In. split; [exact H | simpl; apply Z.eqb_refl]. }
  destruct (filter (fun e => snd e =? v) E); [contradiction | simpl; discriminate].
Qed.

Lemma zero_indegree_In : forall R E v,
  In v (NX.zero_indegree R E) <-> In v R /\ NX.in_degree E v = O.
Proof.
  intros R E v. unfold NX.zero_indegree. rewrite filter_In, Nat.eqb_eq. reflexivity.
Qed.

(** The first generation is the set of nodes without incoming edge. *)
Lemma first_generation : forall fuel R E first rest,
  NX.generations fuel R E = Ret (first :: rest) -> first = NX.zero_indegree R E.
Proof.
  intros fuel R E first rest.
  destruct fuel as [|fuel]; destruct R as [|r R]; try discriminate.
  cbn [NX.generations].
  destruct (NX.zero_indegree (r :: R) E) as [|g gen] eqn:Hgen; [discriminate|].
  unfold obind. destruct (NX.generations fuel _ _); [|discriminate].
  intro H. now injection H as <- _.
Qed.

(** Kahn's algorithm never yields a node of a set in which every node has
    a predecessor: with such nodes left it ends in [NetworkXUnfeasible]. *)
Lemma generations_stuck : forall (P : Z -> Prop) fuel R E,
  (exists v, P v) ->
  (forall v, P v -> In v R) ->
  (forall v, P v -> exists u, P u /\ In (u, v) E) ->
  NX.generations fuel R E = Raise NetworkXUnfeasible.
Proof.
  intros P. induction fuel as [|fuel IH]; intros R E [v0 Hv0] HR HE.
  - destruct R; [destruct (HR v0 Hv0) | reflexivity].
  - destruct R as [|r R]; [destruct (HR v0 Hv0)|].
    cbn [NX.generations].
    destruct (NX.zero_indegree (r :: R) E) as [|g gen] eqn:Hgen; [reflexivity|].
    rewrite <- Hgen.
    assert (Hout : forall v, P v -> NX.mem v (NX.zero_indegree (r :: R) E) = false).
    { intros v Hv. destruct (NX.mem v (NX.zero_indegree (r :: R) E)) eqn:Hm; [|reflexivity].
      apply mem_true_iff, zero_indegree_In in Hm. destruct Hm as [_ Hz].
      destruct (HE v Hv) as [u [_ Hu]]. now apply in_degree_pos in Hu. }
    rewrite IH; [reflexivity | now exists v0 | |].
    + intros v Hv. apply filter_In. split; [now apply HR | now rewrite Hout].
    + intros v Hv. destruct (HE v Hv) as [u [Hu Huv]]. exists u. split; [exact Hu|].
      apply filter_In. split; [exact Huv | simpl; now rewrite Hout].
Qed.

Lemma path_last : forall E a b,
  path E a b -> exists u, In (u, b) E /\ (a = u \/ path E a u).
Proof.
  intros E a b H. induction H as [u v Huv | u v w Huv Hvw IH].
  - exists u. auto.
  - destruct IH as [x [Hx [-> | Hp]]]; exists x; split; auto; right.
    + now apply path_edge.
    + eapply path_step; eauto.
Qed.

(** A node on a cycle has a predecessor on a cycle. *)
Lemma cycle_predecessor : forall E v,
  path E v v -> exists u, path E u u /\ In (u, v) E.
Proof.
  intros E v H. destruct (path_last _ _ _ H) as [u [Huv [-> | Hp]]]; exists u.
  - auto.
  - split; [eapply path_step; eauto | exact Huv].
Qed.

Lemma path_source : forall E a b, path E a b -> exists c, In (a, c) E.
Proof. intros E a b H. destruct H; eauto. Qed.

(** A topological sort that completes proves the graph acyclic. *)
Lemma topological_generations_acyclic : forall G gens,
  closed G -> NX.topological_generations G = Ret gens -> acyclic G.
Proof.
  intros G gens Hc Ht v Hv. unfold NX.topological_generations in Ht.
  rewrite (generations_stuck (fun x => path (NX._succ G) x x)) in Ht; [discriminate | | |].
  - now exists v.
  - intros x Hx. destruct (path_source _ _ _ Hx) as [c Hxc]. now apply Hc in Hxc.
  - intros x Hx. now apply cycle_predecessor.
Qed.

Lemma closed_add_node : forall G n a, closed G -> closed (NX.add_node G n a).
Proof.
  intros G n a Hc u v Huv.
  assert (HE : NX._succ (NX.add_node G n a) = NX._succ G).
  { unfold NX.add_node. destruct (NX.has_node G n); reflexivity. }
  rewrite HE in Huv. apply Hc in Huv. destruct Huv.
  split; apply nodes_add_node; now left.
Qed.

Lemma closed_add_edge : forall G u v, closed G -> closed (NX.add_edge G u v).
Proof.
  intros G u v Hc. unfold NX.add_edge.
  set (G1 := if NX.has_node G u then G else NX.add_node G u []).
  assert (H1 : closed G1 /\ In u (NX.nodes G1)).
  { unfold G1. destruct (NX.has_node G u) eqn:Hu.
    - split; [exact Hc | now apply mem_true_iff].
    - split; [now apply closed_add_node | apply nodes_add_node; now right]. }
  destruct H1 as [Hc1 Hu1].
  set (G2 := if NX.has_node G1 v then G1 else NX.add_node G1 v []).
  assert (H2 : closed G2 /\ In u (NX.nodes G2) /\ In v (NX.nodes G2)).
  { unfold G2. destruct (NX.has_node G1 v) eqn:Hv.
    - split; [exact Hc1 | split; [exact Hu1 | now apply mem_true_iff]].
    - split; [now apply closed_add_node|].
      split; apply nodes_add_node; [now left | now right]. }
  destruct H2 as [Hc2 [Hu2 Hv2]].
  destruct (NX.has_edge G2 u v); [exact Hc2|].
  intros a b Hab. simpl in Hab. unfold NX.nodes. simpl.
  apply in_app_iff in Hab. destruct Hab as [Hab | [Hab | []]].
  - now apply Hc2.
  - injection Hab as <- <-. split; assumption.
Qed.

(** After a call of [add_edge] that returns, the backing structure is
    acyclic and has at most one node without incoming edge. *)
Lemma add_edge_returns_rooted : forall wn e self self',
  closed (graph self) ->
  Graph.add_edge wn e self = (self', Ret tt) ->
  closed (graph self') /\ acyclic (graph self') /\ (List.length (roots (graph self')) <= 1)%nat.
Proof.
  intros wn e self self' Hc H. apply add_edge_inv in H.
  inversion H as [ | | | | | first rest Hv Ht Hlen]; subst. simpl.
  assert (Hc' : closed (Graph.inserted e self)) by now apply closed_add_edge.
  split; [exact Hc'|]. split.
  - eapply topological_generations_acyclic; eauto.
  - unfold roots. unfold NX.topological_generations in Ht.
    now rewrite <- (first_generation _ _ _ _ _ Ht).
Qed.

Lemma reachable_closed_acyclic : forall wn self,
  reachable wn self -> closed (graph self) /\ acyclic (graph self).
Proof.
  intros wn self H. induction H as [n | self n _ IH | self c self' _ IH Hadd | self e self' _ IH Hadd].
  - split; [intros u v [] | intros v Hv].
    destruct (path_source _ _ _ Hv) as [c []].
  - exact IH.
  - destruct IH as [Hc Ha]. rewrite add_node_returns in Hadd. injection Hadd as <-. simpl.
    split; [now apply closed_add_node|].
    intros v Hv. apply (Ha v).
    replace (NX._succ (graph self))
      with (NX._succ (NX.add_node (graph self) (id_networkx c) (Graph.node_dict c)));
      [exact Hv|].
    unfold NX.add_node. destruct (NX.has_node (graph self) (id_networkx c)); reflexivity.
  - destruct IH as [Hc _].
    destruct (add_edge_returns_rooted _ _ _ _ Hc Hadd) as [Hc' [Ha' _]]. auto.
Qed.

(** ** ConceptGraph: the invariant of the backing structure *)

(** C2, as the code has it.  In every state reached from an empty graph by
    calls of [add_node] and [add_edge] that return, the backing structure
    is acyclic; and the state in which a call of [add_edge] returns has at
    most one node without incoming edge.  ([add_node] adds a vertex without
    incoming edge and counts no roots.) *)
Theorem reachable_acyclic_rooted_after_add_edge :
  forall (wn : WordNet) (self : Env),
    reachable wn self ->
    acyclic (graph self)
    /\ forall e self', Graph.add_edge wn e self = (self', Ret tt) ->
                       (List.length (roots (graph self')) <= 1)%nat.
Proof.
  intros wn self H. destruct (reachable_closed_acyclic _ _ H) as [Hc Ha].
  split; [exact Ha|].
  intros e self' Hadd. now destruct (add_edge_returns_rooted _ _ _ _ Hc Hadd) as [_ [_ Hr]].
Qed.

Lemma reachable_acyclic_rooted_after_add_edge_witness :
  acyclic (graph Scenario.g_two_nodes)
  /\ (List.length (roots (graph Scenario.g_A)) <= 1)%nat.
Proof.
  assert (Hr : reachable Scenario.wn Scenario.g_two_nodes).
  { apply (reachable_add_node _ Scenario.g_entity Scenario.animal); [|reflexivity].
    apply (reachable_add_node _ (Graph.empty 5) Scenario.entity); [|reflexivity].
    apply reachable_empty. }
  destruct (reachable_acyclic_rooted_after_add_edge Scenario.wn Scenario.g_two_nodes Hr)
    as [Ha Hroots].
  split; [exact Ha|].
  apply (Hroots (Edge.__init__ Scenario.entity Scenario.animal None)). reflexivity.
Defined.

(** C2 fails as stated.  The state after [add_node(entity)] and
    [add_node(animal)] on an empty graph is reached by calls that return,
    and its backing structure has two nodes without incoming edge. *)
Lemma reachable_two_roots_counterexample :
  reachable Scenario.wn Scenario.g_two_nodes
  /\ roots (graph Scenario.g_two_nodes) = [1; 2]
  /\ ~ (List.length (roots (graph Scenario.g_two_nodes)) <= 1)%nat.
Proof.
  split; [|split].
  - apply (reachable_add_node _ Scenario.g_entity Scenario.animal); [|reflexivity].
    apply (reachable_add_node _ (Graph.empty 5) Scenario.entity); [|reflexivity].
    apply reachable_empty.
  - reflexivity.
  - change (~ (2 <= 1)%nat). lia.
Qed.

(** ** The fuel of the topological sort is enough *)

Lemma filter_length_lt : forall (A : Type) (f : A -> bool) (l : list A) (x : A),
  In x l -> f x = false -> (List.length (filter f l) < List.length l)%nat.
Proof.
  intros A f l x. induction l as [|y l IH]; intros Hin Hf; [destruct Hin|].
  simpl. destruct Hin as [-> | Hin].
  - rewrite Hf. pose proof (filter_length_le f l). lia.
  - specialize (IH Hin Hf). destruct (f y); simpl; lia.
Qed.

Lemma mem_head : forall x l, NX.mem x (x :: l) = true.
Proof. intros x l. unfold NX.mem. simpl. now rewrite Z.eqb_refl. Qed.

(** One round of the sort. *)
Lemma generations_round : forall fuel r R E,
  NX.generations (S fuel) (r :: R) E
  = let this_generation := NX.zero_indegree (r :: R) E in
    match this_generation with
    | [] => Raise NetworkXUnfeasible
    | _ :: _ =>
        obind (NX.generations fuel
                 (filter (fun v => negb (NX.mem v this_generation)) (r :: R))
                 (filter (fun e => negb (NX.mem (fst e) this_generation)) E))
              (fun rest => Ret (this_generation :: rest))
    end.
Proof. reflexivity. Qed.

(** More fuel than nodes left changes nothing: the sort never stops for
    lack of fuel. *)
Lemma generations_fuel : forall fuel R E,
  (List.length R <= fuel)%nat ->
  NX.generations (S fuel) R E = NX.generations fuel R E.
Proof.
  induction fuel as [|fuel IH]; intros R E Hlen.
  - destruct R; [reflexivity | simpl in Hlen; lia].
  - destruct R as [|r R]; [reflexivity|].
    rewrite (generations_round (S fuel)), (generations_round fuel). cbv zeta.
    destruct (NX.zero_indegree (r :: R) E) as [|g gen] eqn:Hgen; [reflexivity|].
    rewrite IH; [reflexivity|].
    assert (Hg : In g (r :: R)).
    { assert (H : In g (NX.zero_indegree (r :: R) E)) by (rewrite Hgen; now left).
      now apply zero_indegree_In in H. }
    assert (Hf : negb (NX.mem g (g :: gen)) = false) by now rewrite mem_head.
    pose proof (filter_length_lt _ (fun v => negb (NX.mem v (g :: gen))) (r :: R) g Hg Hf).
    lia.
Qed.

(** ** [ancestors] computes the nodes with a path to the source *)

Lemma predecessors_In : forall G p v,
  In p (NX.predecessors G v) <-> In (p, v) (NX._succ G).
Proof.
  intros G p v. unfold NX.predecessors. rewrite in_map_iff. split.
  - intros [[a b] [Ha Hin]]. simpl in Ha. subst a.
    apply filter_In in Hin. destruct Hin as [Hin Hb]. simpl in Hb.
    apply Z.eqb_eq in Hb. now subst.
  - intro H. exists (p, v). split; [reflexivity|].
    apply filter_In. split; [exact H | simpl; apply Z.eqb_refl].
Qed.

Lemma bfs_next_In : forall G visited frontier x,
  In x (nodup Z.eq_dec
          (filter (fun u => negb (NX.mem u visited))
                  (flat_map (NX.predecessors G) frontier)))
  <-> ~ In x visited /\ exists f, In f frontier /\ In (x, f) (NX._succ G).
Proof.
  intros G visited frontier x.
  rewrite nodup_In, filter_In, in_flat_map, negb_true_iff.
  split.
  - intros [[f [Hf Hp]] Hm]. split.
    + intro Hx. apply mem_true_iff in Hx. congruence.
    + exists f. split; [exact Hf | now apply predecessors_In].
  - intros [Hx [f [Hf Hp]]]. split.
    + exists f. split; [exact Hf | now apply predecessors_In].
    + destruct (NX.mem x visited) eqn:Hm; [|reflexivity].
      apply mem_true_iff in Hm. contradiction.
Qed.

Lemma path_snoc_edge : forall E p x s,
  In (p, x) E -> x = s \/ path E x s -> path E p s.
Proof.
  intros E p x s Hp [-> | Hx]; [now apply path_edge | eapply path_step; eauto].
Qed.

(** The search ends with all the nodes that reach [s], and with them
    only; its fuel is never used up. *)
Lemma bfs_reverse_spec : forall G s, closed G ->
  forall fuel visited frontier,
    bfs_invariant G s visited frontier ->
    (List.length (NX.nodes G) < List.length visited + fuel)%nat ->
    let r := NX.bfs_reverse fuel G visited frontier in
    (exists rest, r = s :: rest) /\ NoDup r
    /\ forall x, In x r <-> x = s \/ path (NX._succ G) x s.
Proof.
  intros G s Hc. induction fuel as [|fuel IH];
    intros visited frontier [Hhd [Hnd [Hsound [Hfr [Hcl Hin]]]]] Hlen.
  - pose proof (NoDup_incl_length Hnd Hin). lia.
  - cbn [NX.bfs_reverse].
    pose proof (bfs_next_In G visited frontier) as Hnext.
    destruct (nodup Z.eq_dec
                (filter (fun u => negb (NX.mem u visited))
                        (flat_map (NX.predecessors G) frontier))) as [|n next] eqn:Hn.
    + cbv zeta. split; [exact Hhd|]. split; [exact Hnd|].
      assert (Hclosed : forall x p, In x visited -> In (p, x) (NX._succ G) -> In p visited).
      { intros x p Hx Hp.
        destruct (in_dec Z.eq_dec p visited) as [Hpv | Hpv]; [exact Hpv|].
        destruct (in_dec Z.eq_dec x frontier) as [Hxf | Hxf].
        - exfalso. apply (proj2 (Hnext p)). split; [exact Hpv | now exists x].
        - eapply Hcl; eauto. }
      assert (Hs : In s visited) by (destruct Hhd as [rest ->]; now left).
      intro x. split; [apply Hsound|].
      intros [-> | Hp]; [exact Hs|].
      induction Hp as [u v Huv | u v w Huv Hvw IHp].
      * eapply Hclosed; eauto.
      * eapply Hclosed; [|exact Huv]. now apply IHp.
    + apply IH.
      * split; [|split; [|split; [|split; [|split]]]].
        -- destruct Hhd as [rest ->]. now exists (rest ++ n :: next)%list.
        -- apply NoDup_app; [exact Hnd | rewrite <- Hn; apply NoDup_nodup |].
           intros a Ha Ha'. now apply Hnext in Ha'.
        -- intros x Hx. apply in_app_iff in Hx. destruct Hx as [Hx | Hx]; [now apply Hsound|].
           apply Hnext in Hx. destruct Hx as [_ [f [Hf Hxf]]]. right.
           eapply path_snoc_edge; [exact Hxf | apply Hsound, Hfr, Hf].
        -- intros x Hx. apply in_app_iff. now right.
        -- intros x p Hx Hnx Hp. apply in_app_iff in Hx. destruct Hx as [Hx | Hx]; [|contradiction].
           apply in_app_iff.
           destruct (in_dec Z.eq_dec p visited) as [Hpv | Hpv]; [now left|].
           destruct (in_dec Z.eq_dec x frontier) as [Hxf | Hxf].
           ++ right. apply Hnext. split; [exact Hpv | now exists x].
           ++ left. eapply Hcl; eauto.
        -- intros x Hx. apply in_app_iff in Hx. destruct Hx as [Hx | Hx]; [now apply Hin|].
           apply Hnext in Hx. destruct Hx as [_ [f [_ Hxf]]]. now apply Hc in Hxf.
      * rewrite length_app. simpl. lia.
Qed.

(** [nx.ancestors(G, source)] is the set of the nodes, other than
    [source], with a path to [source]. *)
Lemma ancestors_spec : forall G s l,
  closed G -> NX.ancestors G s = Ret l ->
  forall u, In u l <-> u <> s /\ path (NX._succ G) u s.
Proof.
  intros G s l Hc. unfold NX.ancestors.
  destruct (NX.has_node G s) eqn:Hs; [|discriminate].
  intro H. injection H as <-.
  apply mem_true_iff in Hs.
  destruct (bfs_reverse_spec G s Hc (List.length (NX.nodes G)) [s] [s])
    as [[rest Hr] [Hnd Hiff]].
  - split; [now exists []|]. split; [repeat constructor; intros []|].
    split; [intros x [<- | []]; now left|]. split; [apply incl_refl|].
    split; [intros x p Hx Hnx; contradiction|].
    intros x [<- | []]. exact Hs.
  - simpl. lia.
  - rewrite Hr in *. simpl. apply NoDup_cons_iff in Hnd. destruct Hnd as [Hsr _].
    intro u. split.
    + intro Hu. assert (Hus : u <> s) by (intros ->; contradiction).
      split; [exact Hus|].
      destruct (proj1 (Hiff u) (or_intror Hu)) as [-> | Hp]; [contradiction | exact Hp].
    + intros [Hus Hp]. destruct (proj2 (Hiff u) (or_intror Hp)) as [<- | Hu];
        [contradiction | exact Hu].
Qed.

(** ** ConceptGraph: the failures of add_edge that change nothing *)

Lemma generations_raises : forall fuel R E x,
  NX.generations fuel R E = Raise x -> x = NetworkXUnfeasible.
Proof.
  induction fuel as [|fuel IH]; intros R E x; destruct R as [|r R]; try discriminate.
  - simpl. congruence.
  - rewrite generations_round. cbv zeta.
    destruct (NX.zero_indegree (r :: R) E); [congruence|].
    destruct (NX.generations fuel _ _) eqn:Hg; [discriminate|].
    simpl. intro H. injection H as <-. eapply IH; eauto.
Qed.

Lemma edge_eqb_eq : forall e1 e2, NX.edge_eqb e1 e2 = true <-> e1 = e2.
Proof.
  intros [a b] [c d]. unfold NX.edge_eqb. simpl.
  rewrite andb_true_iff, !Z.eqb_eq. split; [intros [-> ->]; reflexivity|].
  intro H. now injection H.
Qed.

Lemma has_edge_In : forall G u v, NX.has_edge G u v = true <-> In (u, v) (NX._succ G).
Proof.
  intros G u v. unfold NX.has_edge. rewrite existsb_exists. split.
  - intros [e [He Heq]]. apply edge_eqb_eq in Heq. now subst.
  - intro H. exists (u, v). split; [exact H | now apply edge_eqb_eq].
Qed.

Lemma add_edge_In : forall G u v, In (u, v) (NX._succ (NX.add_edge G u v)).
Proof.
  intros G u v. unfold NX.add_edge.
  set (G2 := if NX.has_node (if NX.has_node G u then G else NX.add_node G u []) v
             then _ else _).
  destruct (NX.has_edge G2 u v) eqn:He; [now apply has_edge_In|].
  simpl. apply in_app_iff. right. now left.
Qed.

Lemma filter_other_edges : forall E e,
  existsb (NX.edge_eqb e) E = false ->
  filter (fun e' => negb (NX.edge_eqb e e')) E = E.
Proof.
  induction E as [|a E IH]; intros e H; [reflexivity|].
  simpl in *. apply orb_false_iff in H. destruct H as [Ha HE].
  rewrite Ha. simpl. now rewrite IH.
Qed.

(** Removing an edge just inserted between two nodes gives the graph
    back. *)
Lemma remove_inserted_edge : forall G u v,
  NX.has_node G u = true -> NX.has_node G v = true -> NX.has_edge G u v = false ->
  NX.remove_edge (NX.add_edge G u v) u v = Ret G.
Proof.
  intros G u v Hu Hv He. unfold NX.add_edge. rewrite Hu, Hv, He.
  unfold NX.remove_edge, NX.has_edge. simpl.
  rewrite existsb_app. simpl.
  assert (Hrefl : NX.edge_eqb (u, v) (u, v) = true) by now apply edge_eqb_eq.
  rewrite Hrefl, orb_true_r, filter_app. simpl. rewrite Hrefl. simpl.
  rewrite filter_other_edges by exact He.
  rewrite app_nil_r. destruct G; reflexivity.
Qed.

(** What [valid_graph_edge] has checked when it returns. *)
Lemma valid_graph_edge_inv : forall wn self e,
  Graph.valid_graph_edge wn self e = Ret true ->
  NX.has_node (graph self) (id_networkx (source e)) = true
  /\ NX.has_node (graph self) (id_networkx (target e)) = true
  /\ exists anc_t,
      NX.ancestors (graph self) (id_networkx (target e)) = Ret anc_t
      /\ NX.mem (id_networkx (source e)) anc_t = false.
Proof.
  intros wn self e. unfold Graph.valid_graph_edge, Graph.__contains__, obind, NX.__contains__.
  destruct (Py.set_contains Node.same_hash Node.__eq__ (nodes self) (source e)); simpl;
    [|discriminate].
  destruct (NX.has_node (graph self) (id_networkx (source e))); simpl; [|discriminate].
  destruct (Py.set_contains Node.same_hash Node.__eq__ (nodes self) (target e)); simpl;
    [|discriminate].
  destruct (NX.has_node (graph self) (id_networkx (target e))) eqn:Ht; simpl; [|discriminate].
  destruct (synset wn (synset_name (target e))); [|discriminate].
  destruct (hypernym_paths a); [discriminate|].
  destruct (negb _); [discriminate|].
  destruct (NX.ancestors (graph self) (id_networkx (target e))) as [anc_t|] eqn:Ha;
    [|discriminate].
  destruct (NX.mem (id_networkx (source e)) anc_t) eqn:Hm; [discriminate|].
  intros _. repeat split. now exists anc_t.
Qed.

(** When [add_edge] fails with an exception that the module raises itself
    (one of the refusals of [valid_graph_edge], or "another root"), the
    graph is as before the call: node set, edge set and backing
    structure. *)
Lemma add_edge_refused_unchanged : forall wn e self self' msg,
  closed (graph self) ->
  Graph.add_edge wn e self = (self', Raise (Exception msg)) ->
  self' = self.
Proof.
  intros wn e self self' msg Hc H. apply add_edge_inv in H.
  inversion H as [x Hv | x Hv Ht | | first rest x Hv Ht Hlen Hr
                  | first rest G Hv Ht Hlen Hr | ]; subst.
  - reflexivity.
  - apply generations_raises in Ht. discriminate.
  - unfold NX.remove_edge in Hr. destruct (NX.has_edge _ _ _); discriminate.
  - assert (Ha : acyclic (Graph.inserted e self)).
    { eapply topological_generations_acyclic; [now apply closed_add_edge | exact Ht]. }
    destruct (valid_graph_edge_inv _ _ _ Hv) as [Hu [Hn [anc_t [Hanc Hm]]]].
    assert (Hne : id_networkx (source e) <> id_networkx (target e)).
    { intro Heq. apply (Ha (id_networkx (source e))). apply path_edge.
      rewrite Heq at 2. apply add_edge_In. }
    assert (He : NX.has_edge (graph self) (id_networkx (source e)) (id_networkx (target e))
                 = false).
    { destruct (NX.has_edge _ _ _) eqn:He; [|reflexivity].
      apply has_edge_In in He.
      assert (Hin : In (id_networkx (source e)) anc_t).
      { apply (ancestors_spec _ _ _ Hc Hanc). split; [exact Hne | now apply path_edge]. }
      apply mem_true_iff in Hin. congruence. }
    unfold Graph.inserted in Hr. rewrite (remove_inserted_edge _ _ _ Hu Hn He) in Hr.
    injection Hr as <-. destruct self; reflexivity.
Qed.

(** * More of the module *)

(** ** The constructors of ConceptNode *)

Lemma synonyms_checked : forall wn s ds,
  forallb (fun x => negb (Nat.eqb (List.length (wn_synsets wn x)) 0)
                    && existsb (Synset_eq s) (wn_synsets wn x)) ds = true
  <-> forall x, In x ds -> exists s', In s' (wn_synsets wn x) /\ name s' = name s.
Proof.
  intros wn s ds. rewrite forallb_forall. split; intros H x Hx; specialize (H x Hx).
  - apply andb_true_iff in H. destruct H as [_ H]. apply existsb_exists in H.
    destruct H as [s' [Hs' Heq]]. exists s'. split; [exact Hs'|].
    unfold Synset_eq in Heq. apply String.eqb_eq in Heq. now symmetry.
  - destruct H as [s' [Hs' Heq]]. apply andb_true_iff. split.
    + destruct (wn_synsets wn x); [destruct Hs' | reflexivity].
    + apply existsb_exists. exists s'. split; [exact Hs'|].
      unfold Synset_eq. apply String.eqb_eq. now symmetry.
Qed.

(** The two ways a call of the constructor ends. *)
Lemma init_cases : forall wn ds nm n,
  (anchored wn ds nm
   /\ Node.__init__ wn ds nm n
      = (n + 1, Ret {| id_networkx := n; descriptors := ds; synset_name := nm |}))
  \/ (~ anchored wn ds nm
      /\ exists msg, Node.__init__ wn ds nm n = (n + 1, Raise (Exception msg))).
Proof.
  intros wn ds nm n.
  unfold Node.__init__, bind, get, modify, raise, ret, Node.valid_types, Node.valid_args,
    obind, synset.
  destruct ds as [|d ds].
  { right. split; [intros [H _]; now apply H | eexists; reflexivity]. }
  cbn [List.length Nat.eqb negb].
  destruct (wn_synset wn nm) as [s|] eqn:Hs.
  2:{ right. split; [intros [_ [s [H _]]]; congruence | eexists; reflexivity]. }
  destruct (String.eqb (pos s) "n") eqn:Hpos; cbn [andb].
  2:{ right. split; [|eexists; reflexivity].
      intros [_ [s0 [H0 [Hp _]]]]. assert (s0 = s) by congruence. subst s0.
      apply String.eqb_eq in Hp. congruence. }
  apply String.eqb_eq in Hpos.
  destruct (forallb _ (d :: ds)) eqn:Hall.
  - left. split; [|reflexivity].
    split; [discriminate|]. exists s. split; [exact Hs|]. split; [exact Hpos|].
    now apply synonyms_checked.
  - right. split; [|eexists; reflexivity].
    intros [_ [s0 [H0 [_ Hsyn]]]]. assert (s0 = s) by congruence. subst s0.
    apply synonyms_checked in Hsyn. congruence.
Qed.

(** X1.  [ConceptNode(descriptors, name)] returns exactly when the labels
    are not none and WordNet lists each of them under the noun synset
    [name]; the node then has the id the counter showed, the labels in the
    order given and the name.  Otherwise it raises an [Exception].  In both
    cases the counter has advanced by one. *)
Theorem init_returns_iff_anchored : forall wn ds nm n,
  (anchored wn ds nm ->
   Node.__init__ wn ds nm n
   = (n + 1, Ret {| id_networkx := n; descriptors := ds; synset_name := nm |}))
  /\ (~ anchored wn ds nm ->
      exists msg, Node.__init__ wn ds nm n = (n + 1, Raise (Exception msg))).
Proof.
  intros wn ds nm n.
  destruct (init_cases wn ds nm n) as [[Ha Hr] | [Hna Hr]]; split; intro H;
    solve [exact Hr | contradiction].
Qed.

Lemma anchored_animal : anchored Scenario.wn ["animal"; "creature"] "animal.n.01".
Proof.
  split; [discriminate|]. exists Scenario.animal_n_01.
  split; [reflexivity|]. split; [reflexivity|].
  intros x [<- | [<- | []]]; exists Scenario.animal_n_01; split;
    solve [reflexivity | now left].
Qed.

Lemma not_anchored_dog_as_animal : ~ anchored Scenario.wn ["dog"] "animal.n.01".
Proof.
  intros [_ [s [Hs [_ Hsyn]]]]. injection Hs as <-.
  destruct (Hsyn "dog" (or_introl eq_refl)) as [s' [[<- | []] Hn]]. discriminate.
Qed.

Lemma init_returns_iff_anchored_witness :
  Node.__init__ Scenario.wn ["animal"; "creature"] "animal.n.01" 6
  = (7, Ret Scenario.animal_creature)
  /\ exists msg, Node.__init__ Scenario.wn ["dog"] "animal.n.01" 6
                 = (7, Raise (Exception msg)).
Proof.
  split.
  - apply (proj1 (init_returns_iff_anchored Scenario.wn ["animal"; "creature"]
                    "animal.n.01" 6)).
    exact anchored_animal.
  - apply (proj2 (init_returns_iff_anchored Scenario.wn ["dog"] "animal.n.01" 6)).
    exact not_anchored_dog_as_animal.
Defined.

(** X2.  [from_descriptor] on a word that WordNet does not know, or knows
    under several synsets, raises an [Exception] and builds no node: the
    counter is not advanced. *)
Theorem from_descriptor_unresolved : forall wn d n,
  List.length (wn_synsets wn d) <> 1%nat ->
  exists msg, Node.from_descriptor wn d n = (n, Raise (Exception msg)).
Proof.
  intros wn d n H. unfold Node.from_descriptor, raise.
  destruct (wn_synsets wn d) as [|s [|s' l]]; [| simpl in H; congruence |];
    eexists; reflexivity.
Qed.

Lemma from_descriptor_unresolved_witness :
  (exists msg, Node.from_descriptor ScenarioD.wn "bank" 5 = (5, Raise (Exception msg)))
  /\ (exists msg, Node.from_descriptor ScenarioD.wn "unicorn" 5 = (5, Raise (Exception msg))).
Proof.
  split; apply from_descriptor_unresolved; vm_compute; discriminate.
Defined.

(** X3.  When [from_descriptor] returns, the word has exactly one synset
    in WordNet, a noun; the node has the word as its only label, the name
    of that synset, and the id the counter showed, and the counter has
    advanced by one. *)
Theorem from_descriptor_resolves : forall wn d n n' c,
  Node.from_descriptor wn d n = (n', Ret c) ->
  exists s,
    wn_synsets wn d = [s]
    /\ c = {| id_networkx := n; descriptors := [d]; synset_name := name s |}
    /\ n' = n + 1
    /\ anchored wn [d] (name s).
Proof.
  intros wn d n n' c. unfold Node.from_descriptor, raise.
  destruct (wn_synsets wn d) as [|s [|s' l]] eqn:Hd; try discriminate.
  intro H. exists s. split; [reflexivity|].
  destruct (init_cases wn [d] (name s) n) as [[Ha Hr] | [_ [msg Hr]]];
    rewrite Hr in H; [|discriminate].
  injection H as <- <-. auto.
Qed.

Lemma from_descriptor_resolves_witness :
  exists s,
    wn_synsets ScenarioD.wn "dog" = [s]
    /\ {| id_networkx := 5; descriptors := ["dog"]; synset_name := "dog.n.01" |}
       = {| id_networkx := 5; descriptors := ["dog"]; synset_name := name s |}
    /\ 6 = 5 + 1
    /\ anchored ScenarioD.wn ["dog"] (name s).
Proof.
  apply (from_descriptor_resolves ScenarioD.wn "dog" 5 6). reflexivity.
Defined.

(** A word whose only synset is a verb: the constructor inside
    [from_descriptor] refuses it, and the id is used up. *)
Example from_descriptor_verb :
  exists msg, Node.from_descriptor ScenarioD.wn "run" 5 = (6, Raise (Exception msg)).
Proof. eexists. reflexivity. Qed.

(** X4.  [is_valid] answers [False] for every node: [self.descriptors] is
    a list, and [valid_types] asks for a set. *)
Theorem is_valid_false : forall wn self, ConceptNode_.is_valid wn self = Ret false.
Proof.
  intros wn self. unfold ConceptNode_.is_valid, ConceptNode_.valid_types.
  now rewrite andb_false_r.
Qed.

(** For the set handed to the constructor the test is the length test the
    constructor is modelled with. *)
Lemma valid_types_set : forall ds nm,
  ConceptNode_.valid_types (ConceptNode_.PySet ds) nm = Node.valid_types ds nm.
Proof. intros ds nm. unfold ConceptNode_.valid_types, Node.valid_types. apply andb_true_r. Qed.

(** ** Membership in a node and in an edge *)

Lemma split_length : forall sep s,
  List.length (Py.split sep s) = S (count_char sep s).
Proof.
  intros sep s. induction s as [|c s IH]; [reflexivity|].
  cbn [Py.split count_char]. destruct (Ascii.eqb c sep).
  - simpl. now rewrite IH.
  - destruct (Py.split sep s) as [|w ws]; [discriminate IH | exact IH].
Qed.

Lemma list_contains_In : forall l x, Py.list_contains l x = true <-> In x l.
Proof.
  intros l x. unfold Py.list_contains. rewrite existsb_exists. split.
  - intros [y [Hy Heq]]. apply String.eqb_eq in Heq. now subst.
  - intro H. exists x. split; [exact H | apply String.eqb_refl].
Qed.

(** X5.  A string is [in] a node in one of two ways: with exactly two dots
    it has to be the synset name of the node, with any other number of
    dots it has to be one of the labels.  So a label with two dots in it is
    not found, unless it is the synset name. *)
Theorem node_contains_str : forall self s,
  ConceptNode_.__contains__ self (PyStr s) = true
  <-> (count_char "." s = 2%nat /\ s = synset_name self)
      \/ (count_char "." s <> 2%nat /\ In s (descriptors self)).
Proof.
  intros self s. unfold ConceptNode_.__contains__. rewrite split_length.
  destruct (Nat.eqb (S (count_char "." s)) 3) eqn:H.
  - apply Nat.eqb_eq in H. rewrite String.eqb_eq. split.
    + intro Hs. left. split; [lia | exact Hs].
    + intros [[_ Hs] | [Hn _]]; [exact Hs | lia].
  - apply Nat.eqb_neq in H. rewrite list_contains_In. split.
    + intro Hs. right. split; [lia | exact Hs].
    + intros [[Hn _] | [_ Hs]]; [lia | exact Hs].
Qed.

(** X6.  A node is [in] an edge exactly when it has the label list and the
    sense of the source or of the target, whatever its id; [None] is [in]
    an edge exactly when the edge has no label. *)
Theorem edge_contains_node : forall self c,
  (ConceptEdge_.__contains__ self (PyNode c) = true
   <-> (descriptors c = descriptors (source self)
        /\ synset_name c = synset_name (source self))
       \/ (descriptors c = descriptors (target self)
           /\ synset_name c = synset_name (target self)))
  /\ (ConceptEdge_.__contains__ self PyNone = true <-> label self = None).
Proof.
  intros self c. split.
  - unfold ConceptEdge_.__contains__. rewrite orb_true_iff, !node_eq_iff. reflexivity.
  - unfold ConceptEdge_.__contains__. destruct (label self); split; congruence.
Qed.

(** X7.  [==] on edges is not symmetric: an edge without label is equal to
    an edge with a label, and that one is not equal to it. *)
Theorem edge_eq_not_symmetric : forall e1 e2,
  label e1 = None -> label e2 <> None ->
  Edge.__eq__ e1 e2 = true /\ Edge.__eq__ e2 e1 = false.
Proof.
  intros e1 e2 H1 H2. unfold Edge.__eq__. rewrite H1.
  destruct (label e2) as [l|]; [|congruence].
  split; [reflexivity|]. simpl. apply andb_false_r.
Qed.

Lemma edge_eq_not_symmetric_witness :
  Edge.__eq__ (Edge.__init__ Scenario.entity Scenario.animal None)
              (Edge.__init__ Scenario.entity Scenario.animal (Some "is-a")) = true
  /\ Edge.__eq__ (Edge.__init__ Scenario.entity Scenario.animal (Some "is-a"))
                 (Edge.__init__ Scenario.entity Scenario.animal None) = false.
Proof.
  apply edge_eq_not_symmetric; [reflexivity | discriminate].
Defined.

(** ** Looking a node up by its id *)

(** X8.  In a set of nodes with distinct ids, [getNodeFromId] of the id of
    a node of the set gives that node, and of an id that no node of the
    set has gives [None]. *)
Theorem getNodeFromId_finds : forall a_nodeset,
  NoDup (map id_networkx a_nodeset) ->
  (forall c, In c a_nodeset ->
             ConceptGraph_.getNodeFromId (id_networkx c) a_nodeset = Some c)
  /\ (forall id, ~ In id (map id_networkx a_nodeset) ->
                 ConceptGraph_.getNodeFromId id a_nodeset = None).
Proof.
  intros a_nodeset Hnd. unfold ConceptGraph_.getNodeFromId. split.
  - induction a_nodeset as [|x l IH]; intros c Hc; [destruct Hc|].
    simpl in Hnd. apply NoDup_cons_iff in Hnd. destruct Hnd as [Hx Hl].
    simpl. destruct Hc as [-> | Hc]; [now rewrite Z.eqb_refl|].
    destruct (id_networkx c =? id_networkx x) eqn:Heq; [|now apply IH].
    apply Z.eqb_eq in Heq. exfalso. apply Hx. rewrite <- Heq. now apply in_map.
  - intros id Hid. destruct (find _ a_nodeset) as [x|] eqn:Hf; [|reflexivity].
    apply find_some in Hf. destruct Hf as [Hin Heq]. apply Z.eqb_eq in Heq.
    exfalso. apply Hid. rewrite Heq. now apply in_map.
Qed.

Lemma getNodeFromId_finds_witness :
  ConceptGraph_.getNodeFromId 2 [Scenario.entity; Scenario.animal; Scenario.dog]
  = Some Scenario.animal
  /\ ConceptGraph_.getNodeFromId 4 [Scenario.entity; Scenario.animal; Scenario.dog] = None.
Proof.
  destruct (getNodeFromId_finds [Scenario.entity; Scenario.animal; Scenario.dog])
    as [Hsome Hnone].
  - simpl. repeat constructor; simpl; intuition discriminate.
  - split.
    + apply (Hsome Scenario.animal). simpl. auto.
    + apply Hnone. simpl. intuition discriminate.
Defined.

(** ** The hash of a node *)

Lemma hash_int_small : forall z, small_id z -> Py.hash_int z = z.
Proof.
  intros z [H0 H1]. unfold Py.hash_int.
  rewrite Z.abs_eq by exact H0. rewrite Z.mod_small by lia.
  assert (Hs : Z.sgn z * z = z).
  { destruct (Z.eq_dec z 0) as [-> | Hz]; [reflexivity|].
    rewrite Z.sgn_pos by lia. lia. }
  rewrite Hs. destruct (z =? -1) eqn:Hm; [|reflexivity].
  apply Z.eqb_eq in Hm. lia.
Qed.

(** X9.  With ids below 2^61 - 1, as a counter that starts at 1 gives
    them, a node is found [in] a set of nodes exactly when the set holds
    that very node: the same id, the same label list, the same sense. *)
Theorem node_set_membership_small_ids : forall s c,
  (forall y, In y s -> small_id (id_networkx y)) ->
  small_id (id_networkx c) ->
  (Py.set_contains Node.same_hash Node.__eq__ s c = true <-> In c s).
Proof.
  intros s c Hs Hc. rewrite set_contains_node_iff. split.
  - intros [y [Hy [Hh He]]]. unfold Node.__hash__ in Hh.
    rewrite !hash_int_small in Hh by auto.
    apply node_eq_iff in He. destruct He as [Hd Hn].
    destruct y, c. simpl in *. subst. exact Hy.
  - intro H. exists c. split; [exact H|]. split; [reflexivity | apply node_eq_refl].
Qed.

Lemma node_set_membership_small_ids_witness :
  Py.set_contains Node.same_hash Node.__eq__ (nodes Scenario.g_A) Scenario.animal = true
  <-> In Scenario.animal (nodes Scenario.g_A).
Proof.
  apply node_set_membership_small_ids.
  - intros y [<- | [<- | []]]; unfold small_id; simpl; lia.
  - unfold small_id. simpl. lia.
Defined.

(** ** The labels of a node never change *)

(** X10.  [add_descriptor] returns only for a label that the node has
    already; for any other label it raises, and in no case does it change
    the node. *)
Theorem add_descriptor_outcomes : forall wn descriptor self,
  fst (Node.add_descriptor wn descriptor self) = self
  /\ (snd (Node.add_descriptor wn descriptor self) = Ret tt
      <-> In descriptor (descriptors self)).
Proof.
  intros wn descriptor self. split; [apply add_descriptor_keeps|].
  rewrite <- list_contains_In.
  unfold Node.add_descriptor, bind, get, lift, Node.valid_add_descriptor, synset, obind, ret.
  simpl.
  destruct (Py.list_contains (descriptors self) descriptor); [split; reflexivity|].
  destruct (wn_synset wn (synset_name self)); [|split; discriminate].
  destruct (negb (existsb (Synset_eq s) (wn_synsets wn descriptor))); split; discriminate.
Qed.

(** ** add_node twice *)

Lemma dict_get_set_same : forall d k v, NX.dict_get (NX.dict_set d k v) k = Ret v.
Proof.
  induction d as [|[k' v'] d IH]; intros k v; simpl.
  - now rewrite String.eqb_refl.
  - destruct (String.eqb k' k) eqn:H; simpl; rewrite H; [reflexivity | apply IH].
Qed.

Lemma dict_get_set_other : forall d k k' v,
  String.eqb k' k = false -> NX.dict_get (NX.dict_set d k' v) k = NX.dict_get d k.
Proof.
  induction d as [|[k0 v0] d IH]; intros k k' v H; simpl.
  - now rewrite H.
  - destruct (String.eqb k0 k') eqn:H0; simpl.
    + apply String.eqb_eq in H0. subst k0. now rewrite H.
    + destruct (String.eqb k0 k); [reflexivity | now apply IH].
Qed.

Lemma dict_set_noop : forall d k v, NX.dict_get d k = Ret v -> NX.dict_set d k v = d.
Proof.
  induction d as [|[k' v'] d IH]; intros k v H; simpl in *; [discriminate|].
  destruct (String.eqb k' k); [congruence | now rewrite IH].
Qed.

(** Updating twice with the attributes of a node is updating once. *)
Lemma node_dict_update_twice : forall d c,
  NX.dict_update (NX.dict_update d (Graph.node_dict c)) (Graph.node_dict c)
  = NX.dict_update d (Graph.node_dict c).
Proof.
  intros d c. unfold NX.dict_update, Graph.node_dict. cbn [fold_left fst snd].
  set (D := NX.dict_set (NX.dict_set (NX.dict_set d _ _) _ _) _ _).
  assert (H1 : NX.dict_get D "id_networkx" = Ret (NX.AttrInt (id_networkx c))).
  { unfold D. rewrite !dict_get_set_other by reflexivity. apply dict_get_set_same. }
  assert (H2 : NX.dict_get D "descriptors" = Ret (NX.AttrList (descriptors c))).
  { unfold D. rewrite dict_get_set_other by reflexivity. apply dict_get_set_same. }
  assert (H3 : NX.dict_get D "synset_name" = Ret (NX.AttrStr (synset_name c))).
  { unfold D. apply dict_get_set_same. }
  now rewrite (dict_set_noop _ _ _ H1), (dict_set_noop _ _ _ H2), (dict_set_noop _ _ _ H3).
Qed.

Lemma node_update_twice : forall l n c,
  NX.node_update (NX.node_update l n (Graph.node_dict c)) n (Graph.node_dict c)
  = NX.node_update l n (Graph.node_dict c).
Proof.
  induction l as [|[m d] l IH]; intros n c; [reflexivity|].
  cbn [NX.node_update]. destruct (m =? n) eqn:H; cbn [NX.node_update]; rewrite H.
  - now rewrite node_dict_update_twice.
  - now rewrite IH.
Qed.

Lemma node_update_absent : forall l l' n a,
  NX.mem n (map fst l) = false ->
  NX.node_update (l ++ l') n a = (l ++ NX.node_update l' n a)%list.
Proof.
  induction l as [|[m d] l IH]; intros l' n a H; [reflexivity|].
  unfold NX.mem in H. simpl in H. apply orb_false_iff in H. destruct H as [Hm Hl].
  rewrite Z.eqb_sym in Hm. simpl. rewrite Hm. f_equal. now apply IH.
Qed.

Lemma digraph_add_node_twice : forall G c,
  NX.add_node (NX.add_node G (id_networkx c) (Graph.node_dict c))
    (id_networkx c) (Graph.node_dict c)
  = NX.add_node G (id_networkx c) (Graph.node_dict c).
Proof.
  intros G c. unfold NX.add_node at 1. rewrite has_node_add_node.
  unfold NX.add_node. destruct (NX.has_node G (id_networkx c)) eqn:H;
    cbn [NX._node NX._succ].
  - now rewrite node_update_twice.
  - unfold NX.has_node, NX.nodes in H. rewrite (node_update_absent _ _ _ _ H).
    cbn [NX.node_update]. rewrite Z.eqb_refl.
    now rewrite node_dict_update_twice.
Qed.

(** X11.  [add_node] of a node that has just been added changes nothing:
    the node set, the edge set and the backing structure, with the
    attributes of its vertices, are those after the first call. *)
Theorem add_node_idempotent : forall c self,
  Graph.add_node c (fst (Graph.add_node c self)) = (fst (Graph.add_node c self), Ret tt).
Proof.
  intros c self. rewrite !add_node_returns. cbn [fst]. f_equal.
  unfold Graph.set_nodes, Graph.set_graph. simpl.
  rewrite digraph_add_node_twice. f_equal.
  unfold Py.set_add at 1. now rewrite set_add_contains_node.
Qed.

(** ** What add_node and add_edge keep, and what add_edge has checked *)

Lemma set_contains_kept : forall (A : Type) (sh eq : A -> A -> bool) s c x,
  Py.set_contains sh eq s x = true ->
  Py.set_contains sh eq (Py.set_add sh eq s c) x = true.
Proof.
  intros A sh eq s c x H. unfold Py.set_add.
  destruct (Py.set_contains sh eq s c); [exact H|].
  unfold Py.set_contains in *. rewrite existsb_app, H. reflexivity.
Qed.

Lemma In_set_add : forall (A : Type) (sh eq : A -> A -> bool) s c x,
  In x (Py.set_add sh eq s c) -> In x s \/ x = c.
Proof.
  intros A sh eq s c x. unfold Py.set_add.
  destruct (Py.set_contains sh eq s c); [now left|].
  intro H. apply in_app_iff in H. destruct H as [H | [<- | []]]; auto.
Qed.

Lemma edge_eq_refl : forall e, Edge.__eq__ e e = true.
Proof.
  intro e. unfold Edge.__eq__. destruct (label e) as [l|] eqn:Hl; [|reflexivity].
  rewrite !node_eq_refl. simpl. apply String.eqb_refl.
Qed.

Lemma edge_same_hash_refl : forall e, Edge.same_hash e e = true.
Proof. intro e. unfold Edge.same_hash. now rewrite !Z.eqb_refl. Qed.

Lemma set_contains_In_node : forall s c,
  In c s -> Py.set_contains Node.same_hash Node.__eq__ s c = true.
Proof.
  intros s c H. apply set_contains_node_iff. exists c.
  split; [exact H|]. split; [reflexivity | apply node_eq_refl].
Qed.

Lemma set_contains_In_edge : forall s e,
  In e s -> Py.set_contains Edge.same_hash Edge.__eq__ s e = true.
Proof.
  intros s e H. unfold Py.set_contains. apply existsb_exists. exists e.
  split; [exact H|]. now rewrite edge_same_hash_refl, edge_eq_refl.
Qed.

Lemma set_add_In : forall (A : Type) (sh eq : A -> A -> bool) s c x,
  In x s -> In x (Py.set_add sh eq s c).
Proof.
  intros A sh eq s c x H. unfold Py.set_add.
  destruct (Py.set_contains sh eq s c); [exact H | apply in_app_iff; now left].
Qed.

Lemma succ_add_edge : forall G u v e,
  In e (NX._succ G) -> In e (NX._succ (NX.add_edge G u v)).
Proof.
  intros G u v e H. unfold NX.add_edge.
  set (G1 := if NX.has_node G u then G else NX.add_node G u []).
  assert (H1 : In e (NX._succ G1)).
  { unfold G1, NX.add_node. destruct (NX.has_node G u); [exact H|].
    destruct (NX.has_node G u); exact H. }
  set (G2 := if NX.has_node G1 v then G1 else NX.add_node G1 v []).
  assert (H2 : In e (NX._succ G2)).
  { unfold G2, NX.add_node. destruct (NX.has_node G1 v); [exact H1|].
    destruct (NX.has_node G1 v); exact H1. }
  destruct (NX.has_edge G2 u v); [exact H2 | simpl; apply in_app_iff; now left].
Qed.

Lemma contains_node_iff : forall self c,
  Graph.__contains__ self (PyNode c) = Ret true
  <-> Py.set_contains Node.same_hash Node.__eq__ (nodes self) c = true
      /\ In (id_networkx c) (NX.nodes (graph self)).
Proof.
  intros self c. unfold Graph.__contains__, NX.__contains__, NX.has_node.
  rewrite <- mem_true_iff, <- andb_true_iff. split; [now intros [= ->] | now intros ->].
Qed.

Lemma add_node_keeps_member : forall self x c self' r,
  Graph.__contains__ self (PyNode x) = Ret true ->
  Graph.add_node c self = (self', r) ->
  Graph.__contains__ self' (PyNode x) = Ret true.
Proof.
  intros self x c self' r Hx H. apply contains_node_iff in Hx. destruct Hx as [Hs Hg].
  rewrite add_node_returns in H. injection H as <- _.
  apply contains_node_iff. simpl. split.
  - now apply set_contains_kept.
  - apply nodes_add_node. now left.
Qed.

Lemma add_edge_keeps_member : forall wn self x e self' r,
  Graph.__contains__ self (PyNode x) = Ret true ->
  Graph.add_edge wn e self = (self', r) ->
  Graph.__contains__ self' (PyNode x) = Ret true.
Proof.
  intros wn self x e self' r Hx H. apply contains_node_iff in Hx. destruct Hx as [Hs Hg].
  apply add_edge_inv, add_edge_frame in H. destruct H as [Hn [_ [Hsub _]]].
  apply contains_node_iff. rewrite Hn. split; [exact Hs | now apply Hsub].
Qed.

(** When [add_edge] returns, the edge is [in] the graph. *)
Lemma add_edge_returns_edge_member : forall wn e self self',
  Graph.add_edge wn e self = (self', Ret tt) ->
  Graph.__contains__ self' (PyEdge e) = Ret true.
Proof.
  intros wn e self self' H. apply add_edge_inv in H.
  inversion H as [ | | | | | first rest Hv Ht Hlen]; subst.
  unfold Graph.__contains__. simpl.
  assert (Hin : Py.set_contains Edge.same_hash Edge.__eq__
                  (Py.set_add Edge.same_hash Edge.__eq__ (edges self) e) e = true).
  { unfold Py.set_add.
    destruct (Py.set_contains Edge.same_hash Edge.__eq__ (edges self) e) eqn:Hc; [exact Hc|].
    apply set_contains_In_edge. apply in_app_iff. right. now left. }
  rewrite Hin. unfold Graph.inserted.
  now rewrite (proj2 (has_edge_In _ _ _) (add_edge_In _ _ _)).
Qed.

(** X12.  A node that is [in] the graph stays [in] it through every call
    of [add_node] and of [add_edge], whether the call returns or raises. *)
Theorem node_membership_kept : forall wn self x,
  Graph.__contains__ self (PyNode x) = Ret true ->
  (forall c self' r, Graph.add_node c self = (self', r) ->
                     Graph.__contains__ self' (PyNode x) = Ret true)
  /\ (forall e self' r, Graph.add_edge wn e self = (self', r) ->
                        Graph.__contains__ self' (PyNode x) = Ret true).
Proof.
  intros wn self x Hx. split.
  - intros c self' r H. eapply add_node_keeps_member; eauto.
  - intros e self' r H. eapply add_edge_keeps_member; eauto.
Qed.

Lemma node_membership_kept_witness :
  Graph.__contains__ (fst (Graph.add_node Scenario.animal Scenario.g_entity))
    (PyNode Scenario.entity) = Ret true
  /\ Graph.__contains__
       (fst (Graph.add_edge Scenario.wn (Edge.__init__ Scenario.entity Scenario.entity None)
               Scenario.g_entity))
       (PyNode Scenario.entity) = Ret true.
Proof.
  destruct (node_membership_kept Scenario.wn Scenario.g_entity Scenario.entity eq_refl)
    as [Hnode Hedge].
  split.
  - apply (Hnode Scenario.animal _ (Ret tt)). reflexivity.
  - apply (Hedge (Edge.__init__ Scenario.entity Scenario.entity None) _
             (Raise NetworkXUnfeasible)).
    reflexivity.
Defined.

(** What [valid_graph_edge] has checked when it returns. *)
Lemma valid_graph_edge_checked : forall wn self e,
  Graph.valid_graph_edge wn self e = Ret true ->
  Graph.__contains__ self (PyNode (source e)) = Ret true
  /\ Graph.__contains__ self (PyNode (target e)) = Ret true
  /\ (exists s p rest,
        wn_synset wn (synset_name (target e)) = Some s
        /\ hypernym_paths s = p :: rest
        /\ In (synset_name (source e)) p)
  /\ (exists anc_t,
        NX.ancestors (graph self) (id_networkx (target e)) = Ret anc_t
        /\ ~ In (id_networkx (source e)) anc_t)
  /\ (exists anc_s,
        NX.ancestors (graph self) (id_networkx (source e)) = Ret anc_s
        /\ ~ In (id_networkx (target e)) anc_s).
Proof.
  intros wn self e. unfold Graph.valid_graph_edge, obind, synset.
  destruct (Graph.__contains__ self (PyNode (source e))) as [[|]|]; try discriminate.
  destruct (Graph.__contains__ self (PyNode (target e))) as [[|]|]; try discriminate.
  cbn [negb].
  destruct (wn_synset wn (synset_name (target e))) as [s|]; [|discriminate].
  destruct (hypernym_paths s) as [|p rest] eqn:Hh; [discriminate|].
  destruct (Py.list_contains p (synset_name (source e))) eqn:Hp; [|discriminate].
  cbn [negb].
  destruct (NX.ancestors (graph self) (id_networkx (target e))) as [anc_t|]; [|discriminate].
  destruct (NX.mem (id_networkx (source e)) anc_t) eqn:Ht; [discriminate|].
  destruct (NX.ancestors (graph self) (id_networkx (source e))) as [anc_s|]; [|discriminate].
  destruct (NX.mem (id_networkx (target e)) anc_s) eqn:Hs; [discriminate|].
  intros _. split; [reflexivity|]. split; [reflexivity|]. split; [|split].
  - exists s, p, rest. split; [reflexivity|]. split; [exact Hh|].
    now apply list_contains_In.
  - exists anc_t. split; [reflexivity|]. rewrite <- mem_true_iff. congruence.
  - exists anc_s. split; [reflexivity|]. rewrite <- mem_true_iff. congruence.
Qed.

(** X13.  When [add_edge] returns, the edge is [in] the graph and so are
    its two ends, the node set is the one before the call, and the sense of
    the source is on the first hypernym path that WordNet gives for the
    sense of the target. *)
Theorem add_edge_returns_member : forall wn e self self',
  Graph.add_edge wn e self = (self', Ret tt) ->
  Graph.__contains__ self' (PyEdge e) = Ret true
  /\ Graph.__contains__ self' (PyNode (source e)) = Ret true
  /\ Graph.__contains__ self' (PyNode (target e)) = Ret true
  /\ nodes self' = nodes self
  /\ exists s p rest,
       wn_synset wn (synset_name (target e)) = Some s
       /\ hypernym_paths s = p :: rest
       /\ In (synset_name (source e)) p.
Proof.
  intros wn e self self' H.
  pose proof (add_edge_inv _ _ _ _ _ H) as Hends.
  pose proof (add_edge_frame _ _ _ _ _ Hends) as [Hn _].
  inversion Hends as [ | | | | | first rest Hv Ht Hlen]; subst.
  destruct (valid_graph_edge_checked _ _ _ Hv) as [Hs [Htg [Hhyp _]]].
  split; [eapply add_edge_returns_edge_member; eauto|].
  split; [eapply add_edge_keeps_member; eauto|].
  split; [eapply add_edge_keeps_member; eauto|].
  split; [exact Hn | exact Hhyp].
Qed.

Lemma add_edge_returns_member_witness :
  let e := Edge.__init__ Scenario.entity Scenario.animal None in
  Graph.__contains__ Scenario.g_A (PyEdge e) = Ret true
  /\ Graph.__contains__ Scenario.g_A (PyNode (source e)) = Ret true
  /\ Graph.__contains__ Scenario.g_A (PyNode (target e)) = Ret true
  /\ nodes Scenario.g_A = nodes Scenario.g_two_nodes
  /\ exists s p rest,
       wn_synset Scenario.wn (synset_name (target e)) = Some s
       /\ hypernym_paths s = p :: rest
       /\ In (synset_name (source e)) p.
Proof.
  apply (add_edge_returns_member Scenario.wn
           (Edge.__init__ Scenario.entity Scenario.animal None) Scenario.g_two_nodes).
  reflexivity.
Defined.

(** ** The backing structure after add_edge *)

Lemma first_generation_nonempty : forall fuel R E first rest,
  NX.generations fuel R E = Ret (first :: rest) -> first <> [].
Proof.
  intros fuel R E first rest H.
  destruct fuel as [|fuel]; destruct R as [|r R]; try discriminate.
  rewrite generations_round in H. cbv zeta in H.
  destruct (NX.zero_indegree (r :: R) E) as [|g gen] eqn:Hgen; [discriminate|].
  destruct (NX.generations fuel _ _); [|discriminate].
  simpl in H. injection H as <- _. discriminate.
Qed.

(** X14.  When [add_edge] returns, the backing structure has exactly one
    node without incoming edge. *)
Theorem add_edge_returns_single_root : forall wn e self self',
  Graph.add_edge wn e self = (self', Ret tt) ->
  exists r, roots (graph self') = [r].
Proof.
  intros wn e self self' H. apply add_edge_inv in H.
  inversion H as [ | | | | | first rest Hv Ht Hlen]; subst. simpl.
  unfold NX.topological_generations in Ht.
  pose proof (first_generation_nonempty _ _ _ _ _ Ht) as Hne.
  rewrite (first_generation _ _ _ _ _ Ht) in Hne, Hlen.
  unfold roots. destruct (NX.zero_indegree _ _) as [|r [|r' l]].
  - contradiction.
  - now exists r.
  - simpl in Hlen. lia.
Qed.

Lemma add_edge_returns_single_root_witness :
  exists r, roots (graph Scenario.g_A) = [r].
Proof.
  apply (add_edge_returns_single_root Scenario.wn
           (Edge.__init__ Scenario.entity Scenario.animal None) Scenario.g_two_nodes).
  reflexivity.
Defined.

(** X15.  On a backing structure whose edges join nodes of it, a call of
    [add_edge] that returns has joined two different nodes between which
    there was no path in either direction, and has added that one edge to
    the backing structure and nothing else. *)
Theorem add_edge_returns_new_edge : forall wn e self self',
  closed (graph self) ->
  Graph.add_edge wn e self = (self', Ret tt) ->
  let u := id_networkx (source e) in
  let v := id_networkx (target e) in
  u <> v
  /\ ~ path (NX._succ (graph self)) u v
  /\ ~ path (NX._succ (graph self)) v u
  /\ graph self' = {| NX._node := NX._node (graph self);
                      NX._succ := (NX._succ (graph self) ++ [(u, v)])%list |}.
Proof.
  intros wn e self self' Hc H u v. apply add_edge_inv in H.
  inversion H as [ | | | | | first rest Hv Ht Hlen]; subst.
  destruct (valid_graph_edge_checked _ _ _ Hv)
    as [Hs [Htg [_ [[anc_t [Hat Hnt]] [anc_s [Has Hns]]]]]].
  apply contains_node_iff in Hs. destruct Hs as [_ Hu].
  apply contains_node_iff in Htg. destruct Htg as [_ Hv'].
  assert (Ha : acyclic (Graph.inserted e self)).
  { eapply topological_generations_acyclic; [now apply closed_add_edge | exact Ht]. }
  assert (Hne : u <> v).
  { assert (Hin : In (u, v) (NX._succ (Graph.inserted e self))) by apply add_edge_In.
    intro Heq. apply (Ha u), path_edge. now rewrite <- Heq in Hin. }
  assert (Huv : ~ path (NX._succ (graph self)) u v).
  { intro Hp. apply Hnt. apply (ancestors_spec _ _ _ Hc Hat). now split. }
  assert (Hvu : ~ path (NX._succ (graph self)) v u).
  { intro Hp. apply Hns. apply (ancestors_spec _ _ _ Hc Has). split; [now apply not_eq_sym | exact Hp]. }
  repeat (split; [assumption|]).
  apply mem_true_iff in Hu. apply mem_true_iff in Hv'.
  change (NX.has_node (graph self) u = true) in Hu.
  change (NX.has_node (graph self) v = true) in Hv'.
  change (NX.add_edge (graph self) u v
          = {| NX._node := NX._node (graph self);
               NX._succ := (NX._succ (graph self) ++ [(u, v)])%list |}).
  unfold NX.add_edge. rewrite Hu, Hv'.
  destruct (NX.has_edge (graph self) u v) eqn:He; [|reflexivity].
  exfalso. apply Huv. apply path_edge. now apply has_edge_In.
Qed.

Lemma closed_two_nodes : closed (graph Scenario.g_two_nodes).
Proof. intros u v []. Qed.

Lemma add_edge_returns_new_edge_witness :
  1 <> 2
  /\ ~ path (NX._succ (graph Scenario.g_two_nodes)) 1 2
  /\ ~ path (NX._succ (graph Scenario.g_two_nodes)) 2 1
  /\ graph Scenario.g_A
     = {| NX._node := NX._node (graph Scenario.g_two_nodes);
          NX._succ := (NX._succ (graph Scenario.g_two_nodes) ++ [(1, 2)])%list |}.
Proof.
  apply (add_edge_returns_new_edge Scenario.wn
           (Edge.__init__ Scenario.entity Scenario.animal None) Scenario.g_two_nodes).
  - exact closed_two_nodes.
  - reflexivity.
Defined.

(** ** Reachable graphs *)

(** X16.  On a graph reached by calls that return, a call of [add_edge]
    that fails with an [Exception] of the module (a refusal of
    [valid_graph_edge], or "another root") leaves the graph exactly as it
    was: node set, edge set and backing structure. *)
Theorem reachable_add_edge_refusal_atomic : forall wn self e self' msg,
  reachable wn self ->
  Graph.add_edge wn e self = (self', Raise (Exception msg)) ->
  self' = self.
Proof.
  intros wn self e self' msg Hr H.
  destruct (reachable_closed_acyclic _ _ Hr) as [Hc _].
  eapply add_edge_refused_unchanged; eauto.
Qed.

Lemma reachable_add_edge_refusal_atomic_witness :
  fst (Graph.add_edge Scenario.wn (Edge.__init__ Scenario.animal Scenario.dog None)
         (fst (Graph.add_node Scenario.dog Scenario.g_two_nodes)))
  = fst (Graph.add_node Scenario.dog Scenario.g_two_nodes).
Proof.
  apply (reachable_add_edge_refusal_atomic Scenario.wn
           (fst (Graph.add_node Scenario.dog Scenario.g_two_nodes))
           (Edge.__init__ Scenario.animal Scenario.dog None) _
           "add_edge: adding edge would create another root").
  - apply (reachable_add_node _ Scenario.g_two_nodes Scenario.dog); [|reflexivity].
    apply (reachable_add_node _ Scenario.g_entity Scenario.animal); [|reflexivity].
    apply (reachable_add_node _ (Graph.empty 5) Scenario.entity); [|reflexivity].
    apply reachable_empty.
  - reflexivity.
Defined.

Lemma succ_add_node : forall G n a, NX._succ (NX.add_node G n a) = NX._succ G.
Proof. intros G n a. unfold NX.add_node. destruct (NX.has_node G n); reflexivity. Qed.

Lemma reachable_within_backing : forall wn self,
  reachable wn self -> within_backing self.
Proof.
  intros wn self H.
  induction H as [n | self n _ IH | self c self' _ IH Hadd | self e self' _ IH Hadd].
  - split; intros x [].
  - exact IH.
  - destruct IH as [Hn He]. rewrite add_node_returns in Hadd. injection Hadd as <-.
    split; simpl.
    + intros x Hx. apply nodes_add_node.
      apply In_set_add in Hx. destruct Hx as [Hx | ->]; [left; now apply Hn | now right].
    + intros x Hx. rewrite succ_add_node. now apply He.
  - destruct IH as [Hn He]. apply add_edge_inv in Hadd.
    inversion Hadd as [ | | | | | first rest Hv Ht Hlen]; subst.
    split; simpl.
    + intros x Hx. apply nodes_add_edge. now apply Hn.
    + intros x Hx. apply In_set_add in Hx. destruct Hx as [Hx | ->].
      * apply succ_add_edge. now apply He.
      * apply add_edge_In.
Qed.

(** X17.  In a graph reached by calls that return, the collections do not
    drift apart: every node of the node set and every edge of the edge set
    is [in] the graph, that is, also present in the backing structure. *)
Theorem reachable_collections_agree : forall wn self,
  reachable wn self ->
  (forall c, In c (nodes self) -> Graph.__contains__ self (PyNode c) = Ret true)
  /\ (forall e, In e (edges self) -> Graph.__contains__ self (PyEdge e) = Ret true).
Proof.
  intros wn self H. destruct (reachable_within_backing _ _ H) as [Hn He]. split.
  - intros c Hc. apply contains_node_iff. split; [now apply set_contains_In_node | auto].
  - intros e Hin. unfold Graph.__contains__.
    rewrite (set_contains_In_edge _ _ Hin).
    now rewrite (proj2 (has_edge_In _ _ _) (He e Hin)).
Qed.

Lemma reachable_collections_agree_witness :
  Graph.__contains__ Scenario.g_A (PyNode Scenario.animal) = Ret true
  /\ Graph.__contains__ Scenario.g_A
       (PyEdge (Edge.__init__ Scenario.entity Scenario.animal None)) = Ret true.
Proof.
  assert (Hr : reachable Scenario.wn Scenario.g_A).
  { apply (reachable_add_edge _ Scenario.g_two_nodes
             (Edge.__init__ Scenario.entity Scenario.animal None)); [|reflexivity].
    apply (reachable_add_node _ Scenario.g_entity Scenario.animal); [|reflexivity].
    apply (reachable_add_node _ (Graph.empty 5) Scenario.entity); [|reflexivity].
    apply reachable_empty. }
  destruct (reachable_collections_agree Scenario.wn Scenario.g_A Hr) as [Hn He].
  split; [apply Hn | apply He]; simpl; auto.
Defined.

(** ** add_descriptor_as_new_node *)

Lemma from_descriptor_shape : forall wn d n n' c,
  Node.from_descriptor wn d n = (n', Ret c) ->
  n' = n + 1
  /\ exists s, wn_synsets wn d = [s]
       /\ c = {| id_networkx := n; descriptors := [d]; synset_name := name s |}.
Proof.
  intros wn d n n' c. unfold Node.from_descriptor, raise.
  destruct (wn_synsets wn d) as [|s [|s' l]]; try discriminate.
  intro H.
  destruct (init_cases wn [d] (name s) n) as [[_ Hr] | [_ [msg Hr]]];
    rewrite Hr in H; [|discriminate].
  injection H as <- <-. split; [reflexivity|]. now exists s.
Qed.

(** X18.  [add_descriptor_as_new_node] raises for a parent that is not
    [in] the graph and changes nothing.  For a parent that is, a word that
    [from_descriptor] cannot make a node of is no failure for the caller:
    the call returns, and node set, edge set and backing structure are as
    before; only the counter may have moved. *)
Theorem add_descriptor_as_new_node_unresolved : forall wn descriptor parent_node self,
  (Graph.__contains__ self (PyNode parent_node) = Ret false ->
   Graph.add_descriptor_as_new_node wn descriptor parent_node self
   = (self, Raise (Exception ("add_descriptor_as_new_node:" ++ Node.__str__ parent_node
                                ++ "not in current graph"))))
  /\ (Graph.__contains__ self (PyNode parent_node) = Ret true ->
      forall n' x,
        Node.from_descriptor wn descriptor (siguiente_id self) = (n', Raise x) ->
        Graph.add_descriptor_as_new_node wn descriptor parent_node self
        = (Graph.set_siguiente_id n' self, Ret tt)).
Proof.
  intros wn descriptor parent_node self. split.
  - intro Hp. unfold Graph.add_descriptor_as_new_node, bind, get, lift, raise.
    now rewrite Hp.
  - intros Hp n' x Hf. unfold Graph.add_descriptor_as_new_node, bind, get, lift.
    rewrite Hp. simpl. unfold Graph.with_siguiente_id. now rewrite Hf.
Qed.

Lemma add_descriptor_as_new_node_unresolved_witness :
  Graph.add_descriptor_as_new_node ScenarioD.wn "bank" Scenario.dog Scenario.g_A
  = (Scenario.g_A,
     Raise (Exception ("add_descriptor_as_new_node:" ++ Node.__str__ Scenario.dog
                         ++ "not in current graph")))
  /\ Graph.add_descriptor_as_new_node ScenarioD.wn "bank" Scenario.animal Scenario.g_A
     = (Graph.set_siguiente_id 5 Scenario.g_A, Ret tt)
  /\ Graph.add_descriptor_as_new_node ScenarioD.wn "run" Scenario.animal Scenario.g_A
     = (Graph.set_siguiente_id 6 Scenario.g_A, Ret tt).
Proof.
  split; [|split].
  - apply (proj1 (add_descriptor_as_new_node_unresolved ScenarioD.wn "bank" Scenario.dog
                    Scenario.g_A)).
    reflexivity.
  - eapply (proj2 (add_descriptor_as_new_node_unresolved ScenarioD.wn "bank" Scenario.animal
                     Scenario.g_A)); [reflexivity | lazy; reflexivity].
  - eapply (proj2 (add_descriptor_as_new_node_unresolved ScenarioD.wn "run" Scenario.animal
                     Scenario.g_A)); [reflexivity | lazy; reflexivity].
Defined.

(** X19.  When [add_descriptor_as_new_node] returns, either the word
    could not be made a node of, and the graph is as before; or the word
    has one synset, the node built of it, with the id the counter showed,
    is [in] the graph, the edge from the parent to it is [in] the graph,
    and the parent still is. *)
Theorem add_descriptor_as_new_node_returns : forall wn descriptor parent_node self self',
  Graph.add_descriptor_as_new_node wn descriptor parent_node self = (self', Ret tt) ->
  (exists n' x,
      Node.from_descriptor wn descriptor (siguiente_id self) = (n', Raise x)
      /\ self' = Graph.set_siguiente_id n' self)
  \/ (exists s,
        wn_synsets wn descriptor = [s]
        /\ let new_node := {| id_networkx := siguiente_id self;
                              descriptors := [descriptor];
                              synset_name := name s |} in
           Graph.__contains__ self' (PyNode new_node) = Ret true
           /\ Graph.__contains__ self' (PyEdge (Edge.__init__ parent_node new_node None))
              = Ret true
           /\ Graph.__contains__ self' (PyNode parent_node) = Ret true
           /\ siguiente_id self' = siguiente_id self + 1).
Proof.
  intros wn descriptor parent_node self self'.
  unfold Graph.add_descriptor_as_new_node, bind, get, lift, raise.
  destruct (Graph.__contains__ self (PyNode parent_node)) as [[|]|] eqn:Hp; try discriminate.
  cbn [negb]. unfold Graph.with_siguiente_id.
  destruct (Node.from_descriptor wn descriptor (siguiente_id self)) as [n' [c|x]] eqn:Hf.
  - intro H. right.
    destruct (from_descriptor_shape _ _ _ _ _ Hf) as [-> [s [Hs ->]]].
    exists s. split; [exact Hs|]. cbv zeta.
    set (new_node := {| id_networkx := siguiente_id self; descriptors := [descriptor];
                        synset_name := name s |}) in *.
    set (self0 := Graph.set_siguiente_id (siguiente_id self + 1) self) in *.
    destruct (Graph.add_node new_node self0) as [self1 r1] eqn:Hnode.
    assert (Hr1 : r1 = Ret tt).
    { rewrite add_node_returns in Hnode. now injection Hnode as _ <-. }
    subst r1.
    assert (Hp0 : Graph.__contains__ self0 (PyNode parent_node) = Ret true) by exact Hp.
    pose proof (add_node_keeps_member _ _ _ _ _ Hp0 Hnode) as Hp1.
    pose proof (add_node_then_contains _ _ _ Hnode) as Hn1.
    split; [eapply add_edge_keeps_member; eauto|].
    split; [eapply add_edge_returns_edge_member; eauto|].
    split; [eapply add_edge_keeps_member; eauto|].
    apply add_edge_inv, add_edge_frame in H. destruct H as [_ [Hid _]].
    rewrite Hid. rewrite add_node_returns in Hnode. now injection Hnode as <-.
  - intro H. injection H as <-. left. now exists n', x.
Qed.

Lemma add_descriptor_as_new_node_returns_witness :
  let self' := fst (Graph.add_descriptor_as_new_node Scenario.wn "dog" Scenario.animal
                      Scenario.g_A) in
  (exists n' x,
      Node.from_descriptor Scenario.wn "dog" (siguiente_id Scenario.g_A) = (n', Raise x)
      /\ self' = Graph.set_siguiente_id n' Scenario.g_A)
  \/ (exists s,
        wn_synsets Scenario.wn "dog" = [s]
        /\ let new_node := {| id_networkx := siguiente_id Scenario.g_A;
                              descriptors := ["dog"];
                              synset_name := name s |} in
           Graph.__contains__ self' (PyNode new_node) = Ret true
           /\ Graph.__contains__ self' (PyEdge (Edge.__init__ Scenario.animal new_node None))
              = Ret true
           /\ Graph.__contains__ self' (PyNode Scenario.animal) = Ret true
           /\ siguiente_id self' = siguiente_id Scenario.g_A + 1).
Proof.
  apply (add_descriptor_as_new_node_returns Scenario.wn "dog" Scenario.animal Scenario.g_A).
  reflexivity.
Defined.

(** The whole of scenario B through [add_descriptor_as_new_node]. *)
Example add_descriptor_as_new_node_dog :
  let self' := fst (Graph.add_descriptor_as_new_node Scenario.wn "dog" Scenario.animal
                      Scenario.g_A) in
  snd (Graph.add_descriptor_as_new_node Scenario.wn "dog" Scenario.animal Scenario.g_A)
  = Ret tt
  /\ NX._succ (graph self') = [(1, 2); (2, 5)]
  /\ roots (graph self') = [1].
Proof. vm_compute. repeat split. Qed.

(** ** Graphs on objects of their own *)



